(** * Board/port reconciliation engine of the Arduino IDE

    A shallow embedding of
    [arduino-ide-extension/src/browser/boards/boards-service-provider.ts]
    (class [BoardsServiceProvider] and namespace [AvailableBoard]) together
    with the properties of its selection, reconnection, restore and
    reconciliation logic.

    JavaScript objects with optional properties are records with [option]
    fields ([None] is [undefined]); arrays are lists; the persistent
    key-value store is a finite map with string keys; a method that can
    dereference [undefined] returns a [Completion]. *)

From Stdlib Require Import ZArith Lia Bool List String Ascii Permutation Sorted.
From stdpp Require Import base option strings gmap.
Import ListNotations.

Local Open Scope string_scope.
Local Open Scope list_scope.
Local Open Scope Z_scope.

(** ** JavaScript values *)

(** [a === b] on values that are a string or [undefined]. *)
Definition strictEq (a b : option string) : bool :=
  match a, b with
  | Some x, Some y => String.eqb x y
  | None, None => true
  | _, _ => false
  end.

(** Truthiness of a string-or-undefined value: [undefined] and the empty
    string are falsy. *)
Definition truthy (a : option string) : bool :=
  match a with
  | Some s => negb (String.eqb s "")
  | None => false
  end.

(** Truthiness of a boolean-or-undefined value. *)
Definition truthyFlag (a : option bool) : bool :=
  match a with
  | Some b => b
  | None => false
  end.

(** [a === b] on values that are a boolean or [undefined]. *)
Definition strictEqFlag (a b : option bool) : bool :=
  match a, b with
  | Some x, Some y => Bool.eqb x y
  | None, None => true
  | _, _ => false
  end.

(** The outcome of running a statement list: normal completion with a
    value, or an exception thrown by dereferencing [undefined]. *)
Inductive Exception := TypeError.

Inductive Completion (A : Type) :=
| Normal (a : A)
| Throw (e : Exception).
Arguments Normal {A} a.
Arguments Throw {A} e.

(** ** Ports *)

Module Port.

Record t := { address : string; protocol : string }.

(** Modelled from the spec: [Port.sameAs] lives in [common/protocol],
    which is not part of the sources at hand. "Two ports are the same iff
    address and protocol match"; an absent port is the same as nothing. *)
Definition sameAs (left right : option t) : bool :=
  match left, right with
  | Some l, Some r =>
      String.eqb (address l) (address r) && String.eqb (protocol l) (protocol r)
  | _, _ => false
  end.

(** [port?.address] and [port?.protocol]. *)
Definition address_opt (p : option t) : option string := address <$> p.
Definition protocol_opt (p : option t) : option string := protocol <$> p.

End Port.

(** ** Boards and available boards *)

(** [AvailableBoard.State]: a numeric enum, in declaration order. *)
Module State.

Inductive t := recognized | guessed | incomplete.

Definition toZ (s : t) : Z :=
  match s with
  | recognized => 0
  | guessed => 1
  | incomplete => 2
  end.

Definition eqb (a b : t) : bool := Z.eqb (toZ a) (toZ b).

(** [a === b], [a < b] on values that are a state or [undefined];
    a relational comparison with [undefined] is false. *)
Definition strictEq (a b : option t) : bool :=
  match a, b with
  | Some x, Some y => eqb x y
  | None, None => true
  | _, _ => false
  end.

Definition lt (a b : option t) : bool :=
  match a, b with
  | Some x, Some y => Z.ltb (toZ x) (toZ y)
  | _, _ => false
  end.

End State.

Module Board.

(** A board object. [AvailableBoard extends Board] adds [state],
    [selected] and [port]; the selected board of a configuration may be
    such an object, so one record with optional properties serves both. *)
Record t := {
  name : string;
  fqbn : option string;
  port : option Port.t;
  state : option State.t;
  selected : option bool
}.

(** A plain board: name and FQBN only. *)
Definition plain (n : string) (f : option string) : t :=
  {| name := n; fqbn := f; port := None; state := None; selected := None |}.

(** Modelled from the spec: [Board.equals] lives in [common/protocol],
    which is not part of the sources at hand. "A board is the same as
    another iff name and fqbn match (fqbn presence/absence included)". *)
Definition equals (left right : t) : bool :=
  String.eqb (name left) (name right) && strictEq (fqbn left) (fqbn right).

(** Modelled from the spec: [Board.sameAs] lives in [common/protocol],
    which is not part of the sources at hand. The spec gives one exact
    rule for boards being the same: name and fqbn match. *)
Definition sameAs (left right : t) : bool :=
  String.eqb (name left) (name right) && strictEq (fqbn left) (fqbn right).

End Board.

Module BoardsConfig.
Module Config.

Record t := {
  selectedBoard : option Board.t;
  selectedPort : option Port.t
}.

(** The empty object [{}]. *)
Definition empty : t := {| selectedBoard := None; selectedPort := None |}.

(** Modelled from the spec: [BoardsConfig.Config.sameAs] lives in
    [boards-config], which is not part of the sources at hand. The
    configuration matches a board by "board-equals AND port-equals the
    current selection"; the port compared is the one the board object
    carries. *)
Definition sameAs (config : t) (other : Board.t) : bool :=
  match selectedBoard config with
  | Some board =>
      Board.equals other board && Port.sameAs (selectedPort config) (Board.port other)
  | None => false
  end.

End Config.
End BoardsConfig.

Module AvailableBoard.

(** [AvailableBoard.is]: ['state' in board]; [Board.is] holds of every
    board object. *)
Definition is_ (board : Board.t) : bool := bool_decide (is_Some (Board.state board)).

Definition hasPort (board : Board.t) : bool := bool_decide (is_Some (Board.port board)).

Section Compare.

(** [naturalCompare] comes from [common/utils]; it is applied to
    [port?.address], which is [undefined] for a board without port. *)
Variable naturalCompare : option string -> option string -> Z.

Definition protocolOf (board : Board.t) : option string :=
  Port.protocol_opt (Board.port board).

Definition addressOf (board : Board.t) : option string :=
  Port.address_opt (Board.port board).

Definition compare (left right : Board.t) : Z :=
  if strictEq (protocolOf left) (Some "serial")
     && negb (strictEq (protocolOf right) (Some "serial"))
  then -1
  else if negb (strictEq (protocolOf left) (Some "serial"))
          && strictEq (protocolOf right) (Some "serial")
  then 1
  else if strictEq (protocolOf left) (Some "network")
          && negb (strictEq (protocolOf right) (Some "network"))
  then -1
  else if negb (strictEq (protocolOf left) (Some "network"))
          && strictEq (protocolOf right) (Some "network")
  then 1
  else if strictEq (protocolOf left) (protocolOf right)
          && State.lt (Board.state left) (Board.state right)
  then -1
  else if strictEq (protocolOf left) (protocolOf right)
          && State.lt (Board.state right) (Board.state left)
  then 1
  else naturalCompare (addressOf left) (addressOf right).

End Compare.

End AvailableBoard.

(** [getLastSelectedBoardOnPortKey], for a port object. *)
Definition getLastSelectedBoardOnPortKey (port : Port.t) : string :=
  "last-selected-board-on-port:" +:+ Port.address port.

Definition LATEST_VALID_BOARDS_CONFIG : string := "latest-valid-boards-config".
Definition LATEST_BOARDS_CONFIG : string := "latest-boards-config".

(** ** Natural comparison *)

Module Utils.

(** A string cut into runs of decimal digits, read as numbers, and single
    other characters. *)
Inductive chunk :=
| Digits (n : N)
| Char (c : ascii).

Definition digit (c : ascii) : option N :=
  let n := N_of_ascii c in
  if (48 <=? n)%N && (n <=? 57)%N then Some (n - 48)%N else None.

Definition flush (run : option N) : list chunk :=
  match run with
  | Some n => [Digits n]
  | None => []
  end.

Fixpoint chunks (s : string) (run : option N) : list chunk :=
  match s with
  | EmptyString => flush run
  | String c s' =>
      match digit c with
      | Some d => chunks s' (Some (10 * default 0%N run + d)%N)
      | None => flush run ++ Char c :: chunks s' None
      end
  end.

Definition compareChunk (a b : chunk) : comparison :=
  match a, b with
  | Digits n, Digits m => N.compare n m
  | Char c, Char d => N.compare (N_of_ascii c) (N_of_ascii d)
  | Digits _, Char d => N.compare 48 (N_of_ascii d)
  | Char c, Digits _ => N.compare (N_of_ascii c) 48
  end.

Fixpoint compareChunks (a b : list chunk) : comparison :=
  match a, b with
  | [], [] => Eq
  | [], _ :: _ => Lt
  | _ :: _, [] => Gt
  | x :: a', y :: b' =>
      match compareChunk x y with
      | Eq => compareChunks a' b'
      | c => c
      end
  end.

(** Modelled from the spec: [naturalCompare] is re-exported by
    [common/utils], which is not part of the sources at hand. "A natural
    (human) string comparison": digit runs compare as numbers, other
    characters by code. An [undefined] argument is read as the string the
    conversion to string gives. *)
Definition naturalCompare (left right : option string) : Z :=
  match compareChunks (chunks (default "undefined" left) None)
                      (chunks (default "undefined" right) None) with
  | Lt => -1
  | Eq => 0
  | Gt => 1
  end.

End Utils.

(** ** Arrays *)

Module JSArray.
Section Methods.
Context {A : Type}.

(** [findIndex]: index of the first element satisfying [p], or [-1]. *)
Fixpoint findIndex (p : A -> bool) (l : list A) : Z :=
  match l with
  | [] => -1
  | x :: l' =>
      if p x then 0
      else let i := findIndex p l' in if i <? 0 then -1 else i + 1
  end.

(** [splice(start, 1)] for a natural [start]: drops the element at that
    index, if there is one. *)
Fixpoint splice1 (start : nat) (l : list A) : list A :=
  match l, start with
  | [], _ => []
  | _ :: l', O => l'
  | x :: l', S n => x :: splice1 n l'
  end.

(** [sort(compareFn)]. The engine's algorithm is not part of the code;
    ECMAScript fixes the result (the stable sorted permutation) only
    when [compareFn] orders the elements consistently, and any stable
    sort computes it then. This one is the stable insertion sort. *)
Fixpoint insert (compareFn : A -> A -> Z) (x : A) (l : list A) : list A :=
  match l with
  | [] => [x]
  | y :: l' =>
      if compareFn x y <=? 0 then x :: y :: l'
      else y :: insert compareFn x l'
  end.

Fixpoint sort (compareFn : A -> A -> Z) (l : list A) : list A :=
  match l with
  | [] => []
  | x :: l' => insert compareFn x (sort compareFn l')
  end.

End Methods.
End JSArray.

(** ** The boards service provider *)

(** A boards package, as carried by install and uninstall events. *)
Record BoardsPackage := {
  id : string;
  boards : list Board.t
}.

(** What the three emitters of the provider fire. *)
Inductive Notification :=
| BoardsConfigChanged (config : BoardsConfig.Config.t)
| AvailableBoardsChanged (availableBoards : list Board.t)
| AvailablePortsChanged (availablePorts : list Port.t).

(** Options of [canVerify] and [canUploadTo]. *)
Record Options := { silent : bool }.

Module BoardsServiceProvider.
Import BoardsConfig.

(** The fields of the class, the store reached through [getData] and
    [setData] (boards under the per-port keys, configurations under the
    two configuration keys), and the notifications fired so far, latest
    first. *)
Record t := {
  _latestValidBoardsConfig : option Config.t;
  _latestBoardsConfig : option Config.t;
  _boardsConfig : Config.t;
  _attachedBoards : list Board.t;
  _availablePorts : list Port.t;
  _availableBoards : list Board.t;
  storedBoards : gmap string Board.t;
  storedConfigs : gmap string Config.t;
  fired : list Notification
}.

(** The provider as the field initialisers leave it, over a given store. *)
Definition initial (boardStore : gmap string Board.t)
    (configStore : gmap string Config.t) : t :=
  {| _latestValidBoardsConfig := None;
     _latestBoardsConfig := None;
     _boardsConfig := Config.empty;
     _attachedBoards := [];
     _availablePorts := [];
     _availableBoards := [];
     storedBoards := boardStore;
     storedConfigs := configStore;
     fired := [] |}.

Definition boardsConfig (this : t) : Config.t := _boardsConfig this.
Definition availableBoards (this : t) : list Board.t := _availableBoards this.
Definition latestValidBoardsConfig (this : t) : option Config.t :=
  _latestValidBoardsConfig this.
Definition latestBoardsConfig (this : t) : option Config.t :=
  _latestBoardsConfig this.

Definition fire (n : Notification) (this : t) : t :=
  {| _latestValidBoardsConfig := _latestValidBoardsConfig this;
     _latestBoardsConfig := _latestBoardsConfig this;
     _boardsConfig := _boardsConfig this;
     _attachedBoards := _attachedBoards this;
     _availablePorts := _availablePorts this;
     _availableBoards := _availableBoards this;
     storedBoards := storedBoards this;
     storedConfigs := storedConfigs this;
     fired := n :: fired this |}.

(** *** Validation *)

Definition noneSelected : string := "No boards selected.".
Definition noPortsSelected (name : string) : string :=
  "No ports selected for board: '" +:+ name +:+ "'.".
Definition quote : string := String (Ascii.ascii_of_nat 34) EmptyString.
Definition noFQBN (name : string) : string :=
  "The FQBN is not available for the selected board " +:+ quote +:+ name
  +:+ quote +:+ ". Do you have the corresponding core installed?".

(** The body of [canVerify], on the value its [config] parameter holds
    once the default has been applied: the result and the warnings sent
    to the message service. *)
Definition canVerifyBody (config : option Config.t) (options : Options)
    : bool * list string :=
  match config with
  | None => (false, [])
  | Some config =>
      match Config.selectedBoard config with
      | None => (false, if negb (silent options) then [noneSelected] else [])
      | Some _ => (true, [])
      end
  end.

(** [canVerify(config = this.boardsConfig, options = { silent: true })]:
    an argument that is [undefined] or left out takes the default. *)
Definition canVerify (this : t) (config : option Config.t)
    (options : option Options) : bool * list string :=
  canVerifyBody (Some (default (boardsConfig this) config))
                (default {| silent := true |} options).

Definition canUploadTo (this : t) (config : option Config.t)
    (options : option Options) : bool * list string :=
  let config := default (boardsConfig this) config in
  let options := default {| silent := true |} options in
  let '(verifiable, warnings) := canVerify this (Some config) (Some options) in
  if negb verifiable then (false, warnings)
  else
    match Config.selectedBoard config with
    | None => (false, warnings)
    | Some board =>
        match Config.selectedPort config with
        | None =>
            (false, warnings ++
               if negb (silent options) then [noPortsSelected (Board.name board)] else [])
        | Some _ =>
            if negb (truthy (Board.fqbn board))
            then (false, warnings ++
                    if negb (silent options) then [noFQBN (Board.name board)] else [])
            else (true, warnings)
        end
    end.

(** [this.canUploadTo(config)], as the class itself calls it. *)
Definition uploadable (this : t) (config : Config.t) : bool :=
  fst (canUploadTo this (Some config) None).

(** *** Setting the configuration *)

Definition setBoardsConfig (config : Config.t) (this : t) : t :=
  {| _latestValidBoardsConfig :=
       if uploadable this config then Some config
       else _latestValidBoardsConfig this;
     _latestBoardsConfig := Some config;
     _boardsConfig := config;
     _attachedBoards := _attachedBoards this;
     _availablePorts := _availablePorts this;
     _availableBoards := _availableBoards this;
     storedBoards := storedBoards this;
     storedConfigs := storedConfigs this;
     fired := fired this |}.

(** The setter [set boardsConfig]. It runs [setBoardsConfig] at once;
    [saveState], [reconcileAvailableBoards] and the notification follow
    in later turns of the event loop (see [boardsConfigSettled]). *)
Definition set_boardsConfig (config : Config.t) (this : t) : t :=
  setBoardsConfig config this.

(** *** Auto-reconnect *)

Definition notIncomplete (board : Board.t) : bool :=
  negb (State.strictEq (Board.state board) (Some State.incomplete)).

(** The condition of the first loop. It reads
    [this._latestValidBoardsConfig.selectedBoard.fqbn] first. *)
Definition exactMatch (latest : Config.t) (board : Board.t) : Completion bool :=
  match Config.selectedBoard latest with
  | None => Throw TypeError
  | Some selectedBoard =>
      Normal (strictEq (Board.fqbn selectedBoard) (Board.fqbn board)
              && String.eqb (Board.name selectedBoard) (Board.name board)
              && Port.sameAs (Config.selectedPort latest) (Board.port board))
  end.

(** The condition of the second loop; [selectedPort.protocol] is read
    only when FQBN and name agree. *)
Definition relaxedMatch (latest : Config.t) (board : Board.t) : Completion bool :=
  match Config.selectedBoard latest with
  | None => Throw TypeError
  | Some selectedBoard =>
      if strictEq (Board.fqbn selectedBoard) (Board.fqbn board)
         && String.eqb (Board.name selectedBoard) (Board.name board)
      then
        match Config.selectedPort latest with
        | None => Throw TypeError
        | Some selectedPort =>
            Normal (strictEq (Some (Port.protocol selectedPort))
                             (Port.protocol_opt (Board.port board)))
        end
      else Normal false
  end.

(** A [for ... of] loop that leaves at the first element passing [test]. *)
Fixpoint firstMatch (test : Board.t -> Completion bool) (l : list Board.t)
    : Completion (option Board.t) :=
  match l with
  | [] => Normal None
  | board :: l' =>
      match test board with
      | Throw e => Throw e
      | Normal true => Normal (Some board)
      | Normal false => firstMatch test l'
      end
  end.

Definition tryReconnect (this : t) : Completion (bool * t) :=
  match _latestValidBoardsConfig this with
  | Some latest =>
      if negb (uploadable this (boardsConfig this)) then
        match firstMatch (exactMatch latest)
                (List.filter notIncomplete (availableBoards this)) with
        | Throw e => Throw e
        | Normal (Some _) => Normal (true, set_boardsConfig latest this)
        | Normal None =>
            match firstMatch (relaxedMatch latest)
                    (List.filter notIncomplete (availableBoards this)) with
            | Throw e => Throw e
            | Normal (Some board) =>
                Normal (true,
                  set_boardsConfig
                    {| Config.selectedBoard := Config.selectedBoard latest;
                       Config.selectedPort := Board.port board |} this)
            | Normal None => Normal (false, this)
            end
        end
      else Normal (false, this)
  | None => Normal (false, this)
  end.

(** *** Persistence *)

(** [setData(key, value)]: storing [undefined] removes the entry. *)
Definition setData {V : Type} (key : string) (value : option V)
    (store : gmap string V) : gmap string V :=
  match value with
  | Some v => <[key := v]> store
  | None => delete key store
  end.

Definition getLastSelectedBoardOnPort (this : t) (port : Port.t) : option Board.t :=
  storedBoards this !! getLastSelectedBoardOnPortKey port.

Definition saveState (this : t) : t :=
  {| _latestValidBoardsConfig := _latestValidBoardsConfig this;
     _latestBoardsConfig := _latestBoardsConfig this;
     _boardsConfig := _boardsConfig this;
     _attachedBoards := _attachedBoards this;
     _availablePorts := _availablePorts this;
     _availableBoards := _availableBoards this;
     storedBoards :=
       match Config.selectedBoard (boardsConfig this),
             Config.selectedPort (boardsConfig this) with
       | Some selectedBoard, Some selectedPort =>
           setData (getLastSelectedBoardOnPortKey selectedPort)
                   (Some selectedBoard) (storedBoards this)
       | _, _ => storedBoards this
       end;
     storedConfigs :=
       setData LATEST_BOARDS_CONFIG (_latestBoardsConfig this)
         (setData LATEST_VALID_BOARDS_CONFIG (_latestValidBoardsConfig this)
            (storedConfigs this));
     fired := fired this |}.

Definition with_latestValidBoardsConfig (config : option Config.t) (this : t) : t :=
  {| _latestValidBoardsConfig := config;
     _latestBoardsConfig := _latestBoardsConfig this;
     _boardsConfig := _boardsConfig this;
     _attachedBoards := _attachedBoards this;
     _availablePorts := _availablePorts this;
     _availableBoards := _availableBoards this;
     storedBoards := storedBoards this;
     storedConfigs := storedConfigs this;
     fired := fired this |}.

Definition with_latestBoardsConfig (config : option Config.t) (this : t) : t :=
  {| _latestValidBoardsConfig := _latestValidBoardsConfig this;
     _latestBoardsConfig := config;
     _boardsConfig := _boardsConfig this;
     _attachedBoards := _attachedBoards this;
     _availablePorts := _availablePorts this;
     _availableBoards := _availableBoards this;
     storedBoards := storedBoards this;
     storedConfigs := storedConfigs this;
     fired := fired this |}.

(** [loadState]. [urlConfig] is what [BoardsConfig.Config.getConfig]
    reads from the URL of the window. *)
Definition loadState (urlConfig : option Config.t) (this : t) : t :=
  match storedConfigs this !! LATEST_VALID_BOARDS_CONFIG with
  | Some storedLatestValidBoardsConfig =>
      let this := with_latestValidBoardsConfig (Some storedLatestValidBoardsConfig) this in
      if uploadable this storedLatestValidBoardsConfig
      then set_boardsConfig storedLatestValidBoardsConfig this
      else this
  | None =>
      let storedLatestBoardsConfig :=
        match storedConfigs this !! LATEST_BOARDS_CONFIG with
        | Some config => Some config
        | None => urlConfig
        end in
      match storedLatestBoardsConfig with
      | Some config =>
          set_boardsConfig config (with_latestBoardsConfig (Some config) this)
      | None => this
      end
  end.

(** *** Reconciliation *)

Definition with_availableBoards (availableBoards : list Board.t) (this : t) : t :=
  {| _latestValidBoardsConfig := _latestValidBoardsConfig this;
     _latestBoardsConfig := _latestBoardsConfig this;
     _boardsConfig := _boardsConfig this;
     _attachedBoards := _attachedBoards this;
     _availablePorts := _availablePorts this;
     _availableBoards := availableBoards;
     storedBoards := storedBoards this;
     storedConfigs := storedConfigs this;
     fired := fired this |}.

(** The first statement: the selected port is unset when it is no longer
    among the available ports. *)
Definition unsetMissingPort (this : t) : t :=
  if bool_decide (is_Some (Config.selectedPort (boardsConfig this)))
     && negb (existsb (fun port =>
                Port.sameAs (Some port) (Config.selectedPort (boardsConfig this)))
              (_availablePorts this))
  then
    let this := setBoardsConfig
                  {| Config.selectedBoard := Config.selectedBoard (boardsConfig this);
                     Config.selectedPort := None |} this in
    fire (BoardsConfigChanged (_boardsConfig this)) this
  else this.

(** [this._attachedBoards.filter(({ port }) => !!port)] *)
Definition attachedWithPort (this : t) : list Board.t :=
  List.filter (fun board => bool_decide (is_Some (Board.port board)))
              (_attachedBoards this).

Definition availableBoardPorts (this : t) : list Port.t :=
  List.filter
    (fun port =>
       if String.eqb (Port.protocol port) "serial" then true
       else existsb
              (fun board =>
                 strictEq (Port.address_opt (Board.port board))
                          (Some (Port.address port)))
              (attachedWithPort this))
    (_availablePorts this).

Definition unknown : string := "Unknown".

(** The body of the loop over [availableBoardPorts]: the available
    board of one port. *)
Definition availableBoardOn (this : t) (boardsConfig : Config.t)
    (boardPort : Port.t) : Board.t :=
  match List.find (fun board => Port.sameAs (Some boardPort) (Board.port board))
                  (attachedWithPort this) with
  | Some board =>
      {| Board.name := Board.name board;
         Board.fqbn := Board.fqbn board;
         Board.state := Some State.recognized;
         Board.selected := Some (Config.sameAs boardsConfig board);
         Board.port := Some boardPort |}
  | None =>
      match getLastSelectedBoardOnPort this boardPort with
      | Some lastSelectedBoard =>
          {| Board.name := Board.name lastSelectedBoard;
             Board.fqbn := Board.fqbn lastSelectedBoard;
             Board.state := Some State.guessed;
             Board.selected := Some (Config.sameAs boardsConfig lastSelectedBoard);
             Board.port := Some boardPort |}
      | None =>
          {| Board.name := unknown;
             Board.fqbn := None;
             Board.state := Some State.incomplete;
             Board.selected := None;
             Board.port := Some boardPort |}
      end
  end.

(** The selected board as an available board of its own. *)
Definition selectedEntry (selectedBoard : Board.t) (boardsConfig : Config.t) : Board.t :=
  {| Board.name := Board.name selectedBoard;
     Board.fqbn := Board.fqbn selectedBoard;
     Board.port := Config.selectedPort boardsConfig;
     Board.selected := Some true;
     Board.state := Some State.incomplete |}.

(** The statement after the loop: when a board is selected and no entry
    is, the entry on the selected port address goes and the selected board
    is pushed. *)
Definition injectSelected (boardsConfig : Config.t)
    (availableBoards : list Board.t) : list Board.t :=
  match Config.selectedBoard boardsConfig with
  | Some selectedBoard =>
      if negb (existsb (fun board => truthyFlag (Board.selected board)) availableBoards)
      then
        let found :=
          JSArray.findIndex
            (fun board =>
               strictEq (Port.address_opt (Board.port board))
                        (Port.address_opt (Config.selectedPort boardsConfig)))
            availableBoards in
        (if found >=? 0 then JSArray.splice1 (Z.to_nat found) availableBoards
         else availableBoards)
        ++ [selectedEntry selectedBoard boardsConfig]
      else availableBoards
  | None => availableBoards
  end.

Section Reconcile.

Variable naturalCompare : option string -> option string -> Z.

(** The array before it is sorted. *)
Definition collectAvailableBoards (this : t) : list Board.t :=
  injectSelected (boardsConfig this)
    (List.map (availableBoardOn this (boardsConfig this)) (availableBoardPorts this)).

Definition hasChanged (availableBoards currentAvailableBoards : list Board.t) : bool :=
  if negb (Nat.eqb (length availableBoards) (length currentAvailableBoards))
  then true
  else existsb
         (fun pair =>
            let left := fst pair in
            let right := snd pair in
            negb (strictEq (Board.fqbn left) (Board.fqbn right))
            || negb (AvailableBoard.compare naturalCompare left right =? 0)
            || negb (strictEqFlag (Board.selected left) (Board.selected right)))
         (combine availableBoards currentAvailableBoards).

(** The sorted array the pass computes, from the provider as the first
    statement leaves it. *)
Definition reconciled (this : t) : list Board.t :=
  JSArray.sort (AvailableBoard.compare naturalCompare)
               (collectAvailableBoards (unsetMissingPort this)).

Definition reconcileAvailableBoards (this : t) : t :=
  let availableBoards := reconciled this in
  let this := unsetMissingPort this in
  if hasChanged availableBoards (_availableBoards this)
  then fire (AvailableBoardsChanged availableBoards)
            (with_availableBoards availableBoards this)
  else this.

(** What the setter defers: [saveState], then the pass, then the
    notification. *)
Definition boardsConfigSettled (this : t) : t :=
  let this := reconcileAvailableBoards (saveState this) in
  fire (BoardsConfigChanged (_boardsConfig this)) this.

Definition notifyAttachedBoardsChanged (newBoards : list Board.t)
    (newPorts : list Port.t) (this : t) : Completion (bool * t) :=
  let this :=
    {| _latestValidBoardsConfig := _latestValidBoardsConfig this;
       _latestBoardsConfig := _latestBoardsConfig this;
       _boardsConfig := _boardsConfig this;
       _attachedBoards := newBoards;
       _availablePorts := newPorts;
       _availableBoards := _availableBoards this;
       storedBoards := storedBoards this;
       storedConfigs := storedConfigs this;
       fired := fired this |} in
  let this := fire (AvailablePortsChanged (_availablePorts this)) this in
  tryReconnect (reconcileAvailableBoards this).

End Reconcile.

(** *** Package uninstall *)

Definition notifyPlatformUninstalled (item : BoardsPackage) (this : t) : t :=
  match Config.selectedBoard (boardsConfig this) with
  | Some selectedBoard =>
      if truthy (Board.fqbn selectedBoard) then
        match List.find (fun board => String.eqb (Board.name board) (Board.name selectedBoard))
                        (boards item) with
        | Some uninstalledBoard =>
            if strictEq (Board.fqbn uninstalledBoard) (Board.fqbn selectedBoard) then
              let selectedAvailableBoard :=
                if AvailableBoard.is_ selectedBoard then Some selectedBoard
                else List.find (fun availableBoard => Board.sameAs availableBoard selectedBoard)
                               (_availableBoards this) in
              if match selectedAvailableBoard with
                 | Some board =>
                     truthyFlag (Board.selected board)
                     && State.strictEq (Board.state board) (Some State.recognized)
                 | None => false
                 end
              then this
              else
                set_boardsConfig
                  {| Config.selectedBoard := Some (Board.plain (Board.name selectedBoard) None);
                     Config.selectedPort := Config.selectedPort (boardsConfig this) |}
                  this
            else this
        | None => this
        end
      else this
  | None => this
  end.

(** *** Waiting for a board *)

Inductive Error := TimeoutAfter (ms : Z).

Inductive Promise := Pending | Fulfilled | Rejected (reason : Error).

(** [Promise.race] of two promises, as seen when one of them settles:
    a settled race keeps its outcome. *)
Definition race (current first second : Promise) : Promise :=
  match current with
  | Pending =>
      match first with
      | Pending => second
      | _ => first
      end
  | _ => current
  end.

(** One call of [waitUntilAvailable]: its two tasks, the promise it
    returned, whether its listener is registered on
    [onAvailableBoardsChanged], its timer if armed, and how often the
    listener has run. *)
Record Waiting := {
  what : Board.t;
  waitUntilTask : Promise;
  timeoutTask : Promise;
  returned : Promise;
  listening : bool;
  timer : option Z;
  listenerRuns : nat
}.

Definition findCandidate (needle : Board.t) (haystack : list Board.t) : option Board.t :=
  List.find (fun board =>
               Board.equals needle board
               && Port.sameAs (Board.port needle) (Board.port board))
            haystack.

(** The call itself: the timer is armed for a positive [timeout], the
    listener is registered unless a candidate is there already. *)
Definition waitUntilAvailable (this : t) (what : Board.t) (timeout : option Z)
    : Waiting :=
  let timer :=
    match timeout with
    | Some ms => if negb (ms =? 0) && (ms >? 0) then Some ms else None
    | None => None
    end in
  match findCandidate what (availableBoards this) with
  | Some _ =>
      {| what := what; waitUntilTask := Fulfilled; timeoutTask := Pending;
         returned := race Pending Fulfilled Pending;
         listening := false; timer := timer; listenerRuns := 0 |}
  | None =>
      {| what := what; waitUntilTask := Pending; timeoutTask := Pending;
         returned := Pending;
         listening := true; timer := timer; listenerRuns := 0 |}
  end.

(** What the event loop brings to a call: the emitter fires, or the
    timer elapses. *)
Inductive Event :=
| Fires (availableBoards : list Board.t)
| TimerElapses.

Definition step (w : Waiting) (e : Event) : Waiting :=
  match e with
  | Fires availableBoards =>
      if listening w then
        match findCandidate (what w) availableBoards with
        | Some _ =>
            {| what := what w; waitUntilTask := Fulfilled;
               timeoutTask := timeoutTask w;
               returned := race (returned w) Fulfilled (timeoutTask w);
               listening := false; timer := timer w;
               listenerRuns := S (listenerRuns w) |}
        | None =>
            {| what := what w; waitUntilTask := waitUntilTask w;
               timeoutTask := timeoutTask w; returned := returned w;
               listening := true; timer := timer w;
               listenerRuns := S (listenerRuns w) |}
        end
      else w
  | TimerElapses =>
      match timer w with
      | Some ms =>
          {| what := what w; waitUntilTask := waitUntilTask w;
             timeoutTask := Rejected (TimeoutAfter ms);
             returned := race (returned w) (waitUntilTask w) (Rejected (TimeoutAfter ms));
             listening := listening w; timer := None;
             listenerRuns := listenerRuns w |}
      | None => w
      end
  end.

Definition run (w : Waiting) (events : list Event) : Waiting :=
  fold_left step events w.

(** *** Board user fields *)

(** [selectedBoardUserFields], over the call
    [boardsService.getBoardUserFields({ fqbn, protocol })]: the request it
    sends, if it sends one, and what it returns. *)
Definition userFieldsRequest (this : t) : option (string * string) :=
  match Config.selectedBoard (_boardsConfig this),
        Config.selectedPort (_boardsConfig this) with
  | Some selectedBoard, Some selectedPort =>
      match Board.fqbn selectedBoard with
      | Some fqbn =>
          if negb (truthy (Some fqbn)) then None
          else Some (fqbn, Port.protocol selectedPort)
      | None => None
      end
  | _, _ => None
  end.

Definition selectedBoardUserFields {BoardUserField : Type}
    (getBoardUserFields : string -> string -> list BoardUserField) (this : t)
    : list BoardUserField :=
  match userFieldsRequest this with
  | Some (fqbn, protocol) => getBoardUserFields fqbn protocol
  | None => []
  end.

(** *** Package install *)

Definition couldNotFindPreviouslySelected (boardName platformName : string) : string :=
  "Could not find previously selected board '" +:+ boardName
  +:+ "' in installed platform '" +:+ platformName
  +:+ "'. Please manually reselect the board you want to use. Do you want to reselect it now?".

Section Install.

(** [BoardWithPackage.is(board)] and [board.packageId] come from
    [common/protocol]: the package id of a board object that carries one. *)
Variable packageIdOf : Board.t -> option string.

(** [notifyPlatformInstalled], for the package [item] with the display
    name [itemName]: the provider after it, and the warnings sent to the
    message service. (The boards dialog opens later, if the warning is
    answered with yes.) *)
Definition notifyPlatformInstalled (item : BoardsPackage) (itemName : string)
    (this : t) : t * list string :=
  match Config.selectedBoard (boardsConfig this) with
  | Some selectedBoard =>
      let installedBoard :=
        List.find (fun board => String.eqb (Board.name board) (Board.name selectedBoard))
                  (boards item) in
      if match installedBoard with
         | Some board =>
             negb (truthy (Board.fqbn selectedBoard))
             || strictEq (Board.fqbn selectedBoard) (Board.fqbn board)
         | None => false
         end
      then
        (set_boardsConfig
           {| Config.selectedBoard := installedBoard;
              Config.selectedPort := Config.selectedPort (boardsConfig this) |} this,
         [])
      else if bool_decide (is_Some (packageIdOf selectedBoard))
              && strictEq (packageIdOf selectedBoard) (Some (id item))
              && negb (bool_decide (is_Some installedBoard))
      then
        (set_boardsConfig Config.empty this,
         [couldNotFindPreviouslySelected (Board.name selectedBoard) itemName])
      else (set_boardsConfig (boardsConfig this) this, [])
  | None => (this, [])
  end.

Section Operations.

Variable naturalCompare : option string -> option string -> Z.


(** What can happen to a provider, one method at a time. *)
Inductive Operation :=
| SetBoardsConfig (config : Config.t)
| Settle
| SaveState
| LoadState (urlConfig : option Config.t)
| Reconcile
| TryReconnect
| AttachedBoardsChanged (attachedBoards : list Board.t) (availablePorts : list Port.t)
| PlatformInstalled (item : BoardsPackage) (itemName : string)
| PlatformUninstalled (item : BoardsPackage).

Definition exec (op : Operation) (this : t) : Completion t :=
  match op with
  | SetBoardsConfig config => Normal (set_boardsConfig config this)
  | Settle => Normal (boardsConfigSettled naturalCompare this)
  | SaveState => Normal (saveState this)
  | LoadState urlConfig => Normal (loadState urlConfig this)
  | Reconcile => Normal (reconcileAvailableBoards naturalCompare this)
  | TryReconnect =>
      match tryReconnect this with
      | Normal (_, this') => Normal this'
      | Throw e => Throw e
      end
  | AttachedBoardsChanged attachedBoards availablePorts =>
      match notifyAttachedBoardsChanged naturalCompare attachedBoards availablePorts this with
      | Normal (_, this') => Normal this'
      | Throw e => Throw e
      end
  | PlatformInstalled item itemName =>
      Normal (fst (notifyPlatformInstalled item itemName this))
  | PlatformUninstalled item => Normal (notifyPlatformUninstalled item this)
  end.

Fixpoint execAll (ops : list Operation) (this : t) : Completion t :=
  match ops with
  | [] => Normal this
  | op :: ops' =>
      match exec op this with
      | Normal this' => execAll ops' this'
      | Throw e => Throw e
      end
  end.

End Operations.

End Install.

End BoardsServiceProvider.

(** ** Opening a sketch

    [open-sketch.ts]. The services the contribution calls (dialogs, file
    service, sketches service, label provider, workspace) are outside the
    code; every call site runs at most once, so what a service answers there
    is a field of [Services], and the calls that show something or change
    something are listed in the order they are made. *)

Module OpenSketch.

(** A [URI], by its string form; [new URI(s)] is the URI of [s]. *)
Record URI := { toString : string }.

(** A [SketchRef] (and a [Sketch], which extends it). *)
Record SketchRef := { name : string; uri : string }.

(** [SketchLocation = string | URI | SketchRef] *)
Inductive SketchLocation :=
| OfString (location : string)
| OfURI (location : URI)
| OfSketchRef (location : SketchRef).

Module SketchLocation.


(** [is(arg)], on an argument that is a location or something else. *)
Definition is_ (arg : option SketchLocation) : bool :=
  match arg with
  | Some _ => true
  | None => false
  end.

(** Truthiness of a location: the empty string is falsy. *)
Definition truthy (location : SketchLocation) : bool :=
  match location with
  | OfString s => negb (String.eqb s "")
  | _ => true
  end.

End SketchLocation.

(** An error thrown by [sketchService.loadSketch]. *)
Record SketchesError := { notFound : bool; message : string }.

Record Services := {
  (** [fileService.fsPath(new URI(config.sketchDirUri))] *)
  defaultPath : string;
  (** [remote.dialog.showOpenDialog(...)]: the [filePaths] *)
  filePaths : list string;
  (** [fileSystemExt.getUri] *)
  getUri : string -> string;
  (** [sketchService.getSketchFolder], for the selected file *)
  getSketchFolder : string -> option SketchRef;
  (** [Sketch.isSketchFile] *)
  isSketchFile : string -> bool;
  (** [new URI(uri).path.name] *)
  pathName : string -> string;
  (** [labelProvider.getName(new URI(uri))] *)
  getName : string -> string;
  (** the [response] of the question box *)
  response : Z;
  (** [new URI(uri).parent.resolve(name)], and [uri.resolve(name)] *)
  parentResolve : string -> string -> string;
  resolve : string -> string -> string;
  (** [fileService.exists] *)
  fileExists : string -> bool;
  (** [sketchService.getSketchFolder], after the move *)
  getSketchFolderMoved : string -> option SketchRef;
  (** [sketchService.loadSketch]: the error it throws, if it throws *)
  loadSketch : string -> option SketchesError
}.

Inductive Effect :=
| ShowOpenDialog (defaultPath : string)
| LoggerWarn (selected : list string)
| QuestionBox (nameWithExt name : string)
| ErrorBox (name : string)
| CreateFolder (folder : string)
| Move (source target : string)
| LoadSketch (sketch : string)
| MessageError (message : string)
| WorkspaceOpen (sketch : URI).

Definition selectSketch (s : Services) : option SketchRef * list Effect :=
  let shown := [ShowOpenDialog (defaultPath s)] in
  match filePaths s with
  | [] => (None, shown)
  | sketchFilePath :: others =>
      let logged :=
        shown ++ if (1 <? Z.of_nat (length (filePaths s))) then [LoggerWarn (filePaths s)] else [] in
      let sketchFileUri := getUri s sketchFilePath in
      match getSketchFolder s sketchFileUri with
      | Some sketch => (Some sketch, logged)
      | None =>
          if isSketchFile s sketchFileUri then
            let name := pathName s sketchFileUri in
            let nameWithExt := getName s sketchFileUri in
            let asked := logged ++ [QuestionBox nameWithExt name] in
            if response s =? 1 then
              let newSketchUri := parentResolve s sketchFileUri name in
              if fileExists s newSketchUri then (None, asked ++ [ErrorBox name])
              else
                (getSketchFolderMoved s newSketchUri,
                 asked ++ [CreateFolder newSketchUri;
                           Move sketchFileUri (resolve s newSketchUri nameWithExt)])
            else (None, asked)
          else (None, logged)
      end
  end.



End OpenSketch.

Import BoardsConfig.
Import BoardsServiceProvider.

(** * Vocabulary of the properties *)

(** The two conditions of [tryReconnect] for a remembered board [lb] on a
    remembered port [lp]. *)
Definition matchesExactly (lb : Board.t) (lp : Port.t) (board : Board.t) : bool :=
  strictEq (Board.fqbn lb) (Board.fqbn board)
  && String.eqb (Board.name lb) (Board.name board)
  && (match Board.port board with
      | Some p => String.eqb (Port.address lp) (Port.address p)
                  && String.eqb (Port.protocol lp) (Port.protocol p)
      | None => false
      end).

Definition matchesRelaxed (lb : Board.t) (lp : Port.t) (board : Board.t) : bool :=
  strictEq (Board.fqbn lb) (Board.fqbn board)
  && String.eqb (Board.name lb) (Board.name board)
  && (match Board.port board with
      | Some p => String.eqb (Port.protocol lp) (Port.protocol p)
      | None => false
      end).

(** The three classes of protocols the order of the available boards is
    described with, and that order as described: by class, then by state,
    then by the natural comparison of the addresses. *)
Definition protocolClass (board : Board.t) : Z :=
  if strictEq (AvailableBoard.protocolOf board) (Some "serial") then 0
  else if strictEq (AvailableBoard.protocolOf board) (Some "network") then 1
  else 2.

Definition compareAsSpecified (naturalCompare : option string -> option string -> Z)
    (left right : Board.t) : Z :=
  if protocolClass left <? protocolClass right then -1
  else if protocolClass right <? protocolClass left then 1
  else if State.lt (Board.state left) (Board.state right) then -1
  else if State.lt (Board.state right) (Board.state left) then 1
  else naturalCompare (AvailableBoard.addressOf left) (AvailableBoard.addressOf right).

Section Arrays.
Context {A : Type}.

(** A comparison that orders the elements of [l] consistently: any two
    of them are comparable, and the order is transitive on them. *)
Definition consistentOn (compareFn : A -> A -> Z) (l : list A) : Prop :=
  (forall a b, In a l -> In b l -> compareFn a b <= 0 \/ compareFn b a <= 0)
  /\ (forall a b c, In a l -> In b l -> In c l ->
                    compareFn a b <= 0 -> compareFn b c <= 0 -> compareFn a c <= 0).

Definition sortedBy (compareFn : A -> A -> Z) (l : list A) : Prop :=
  StronglySorted (fun a b => compareFn a b <= 0) l.

(** The list without the first element that satisfies [p]. *)
Fixpoint removeFirst (p : A -> bool) (l : list A) : list A :=
  match l with
  | [] => []
  | x :: l' => if p x then l' else x :: removeFirst p l'
  end.

End Arrays.



(** Events that leave a call waiting: the emitter fires without a
    candidate; the timer elapses only where none is armed. *)
Definition leavesWaiting (w : Waiting) (e : Event) : Prop :=
  match e with
  | Fires availableBoards => findCandidate (what w) availableBoards = None
  | TimerElapses => timer w = None
  end.

(** A call that waits: nothing settled, the listener registered. *)
Definition waiting (w : Waiting) : Prop :=
  waitUntilTask w = Pending /\ timeoutTask w = Pending
  /\ returned w = Pending /\ listening w = true.


(** The remembered valid configuration, in the provider and in the store,
    is uploadable. *)
Definition rememberedUploadable (this : t) : Prop :=
  (forall v, _latestValidBoardsConfig this = Some v -> uploadable this v = true)
  /\ (forall v, storedConfigs this !! LATEST_VALID_BOARDS_CONFIG = Some v ->
                uploadable this v = true).

(** The selected port is not among the available ports. *)
Definition portMissing (this : t) : bool :=
  bool_decide (is_Some (Config.selectedPort (boardsConfig this)))
  && negb (existsb (fun port => Port.sameAs (Some port)
                                  (Config.selectedPort (boardsConfig this)))
                   (_availablePorts this)).

(** A call whose listener is gone. *)
Definition disposed (w : Waiting) : Prop :=
  listening w = false /\ waitUntilTask w = Fulfilled.

(** What an effect changes on disk. *)
Definition changesDisk (e : OpenSketch.Effect) : bool :=
  match e with
  | OpenSketch.CreateFolder _ | OpenSketch.Move _ _ => true
  | _ => false
  end.

(** What an effect shows to the user for an answer. *)
Definition asksUser (e : OpenSketch.Effect) : bool :=
  match e with
  | OpenSketch.ShowOpenDialog _ | OpenSketch.QuestionBox _ _ | OpenSketch.ErrorBox _ => true
  | _ => false
  end.

(** ** Sample data *)

Module Sample.

Definition serial (a : string) : Port.t :=
  {| Port.address := a; Port.protocol := "serial" |}.
Definition network (a : string) : Port.t :=
  {| Port.address := a; Port.protocol := "network" |}.
Definition usb (a : string) : Port.t :=
  {| Port.address := a; Port.protocol := "usb" |}.
Definition ble (a : string) : Port.t :=
  {| Port.address := a; Port.protocol := "ble" |}.

(** A board as the discovery reports it: name, FQBN and port. *)
Definition attached (n f : string) (p : Port.t) : Board.t :=
  {| Board.name := n; Board.fqbn := Some f; Board.port := Some p;
     Board.state := None; Board.selected := None |}.

(** An entry of the available boards. *)
Definition entry (n : string) (f : option string) (p : Port.t)
    (s : State.t) (sel : option bool) : Board.t :=
  {| Board.name := n; Board.fqbn := f; Board.port := Some p;
     Board.state := Some s; Board.selected := sel |}.

Definition uno : Board.t := Board.plain "Arduino Uno" (Some "arduino:avr:uno").
Definition unoWithoutFqbn : Board.t := Board.plain "Arduino Uno" None.
Definition mkr1000 : Board.t := Board.plain "MKR1000" (Some "arduino:samd:mkr1000").

Definition config (b : Board.t) (p : Port.t) : Config.t :=
  {| Config.selectedBoard := Some b; Config.selectedPort := Some p |}.

(** A provider with the given configuration fields, ports and boards. *)
Definition provider (latestValid : option Config.t) (current : Config.t)
    (attachedBoards : list Board.t) (ports : list Port.t)
    (available : list Board.t) (boardStore : gmap string Board.t) : t :=
  {| _latestValidBoardsConfig := latestValid;
     _latestBoardsConfig := None;
     _boardsConfig := current;
     _attachedBoards := attachedBoards;
     _availablePorts := ports;
     _availableBoards := available;
     storedBoards := boardStore;
     storedConfigs := ∅;
     fired := [] |}.

(** The MKR1000 is selected on COM5. *)
Definition onCOM5 : t :=
  provider (Some (config mkr1000 (serial "COM5")))
           (config mkr1000 (serial "COM5"))
           [attached "MKR1000" "arduino:samd:mkr1000" (serial "COM5")]
           [serial "COM5"]
           [entry "MKR1000" (Some "arduino:samd:mkr1000") (serial "COM5")
                  State.recognized (Some true)]
           ∅.

(** After an upload it is gone from COM5 and back on COM10, and the
    next pass has run. *)
Definition reenumerated : t :=
  reconcileAvailableBoards Utils.naturalCompare
    (provider (Some (config mkr1000 (serial "COM5")))
              (config mkr1000 (serial "COM5"))
              [attached "MKR1000" "arduino:samd:mkr1000" (serial "COM10")]
              [serial "COM10"]
              [entry "MKR1000" (Some "arduino:samd:mkr1000") (serial "COM5")
                     State.recognized (Some true)]
              ∅).

(** A store whose two configuration entries both lack an FQBN. *)
Definition staleStore : gmap string Config.t :=
  <[LATEST_BOARDS_CONFIG := config unoWithoutFqbn (serial "COM3")]>
    (<[LATEST_VALID_BOARDS_CONFIG := config unoWithoutFqbn (serial "COM5")]> ∅).

(** Two Unos are attached; the one on COM4 is selected. *)
Definition twoUnos : t :=
  provider None (config uno (serial "COM4"))
           [attached "Arduino Uno" "arduino:avr:uno" (serial "COM3");
            attached "Arduino Uno" "arduino:avr:uno" (serial "COM4")]
           [serial "COM3"; serial "COM4"]
           [] ∅.




(** A serial port and a network port with one address; a board is
    attached on the network port. *)
Definition sharedAddress : t :=
  provider None Config.empty
           [attached "Arduino Yun" "arduino:avr:yun" (network "A")]
           [serial "A"; network "A"]
           [] ∅.

(** Boards on a usb port and on a ble port; the board selected on the
    ble port is not the one attached there. *)
Definition mixedProtocols : t :=
  provider None (config uno (ble "A"))
           [attached "Teensy" "teensy:avr:teensy40" (usb "B");
            attached "Nano 33 BLE" "arduino:mbed:nano33ble" (ble "A")]
           [usb "B"; ble "A"]
           [] ∅.

(** A recognized board on serial A, a remembered one on serial B,
    recognized ones on network C and usb D; nothing is selected. *)
Definition fourBoards (ports : list Port.t) : t :=
  provider None Config.empty
           [attached "d" "vendor:arch:d" (usb "D");
            attached "c" "vendor:arch:c" (network "C");
            attached "a" "vendor:arch:a" (serial "A")]
           ports
           []
           (<[getLastSelectedBoardOnPortKey (serial "B")
              := Board.plain "b" (Some "vendor:arch:b")]> ∅).

Definition fourBoardsSorted : list Board.t :=
  [entry "a" (Some "vendor:arch:a") (serial "A") State.recognized (Some false);
   entry "b" (Some "vendor:arch:b") (serial "B") State.guessed (Some false);
   entry "c" (Some "vendor:arch:c") (network "C") State.recognized (Some false);
   entry "d" (Some "vendor:arch:d") (usb "D") State.recognized (Some false)].

Definition avr : BoardsPackage :=
  {| id := "arduino:avr";
     boards := [Board.plain "Arduino Uno" (Some "arduino:avr:uno");
                Board.plain "Arduino Mega" (Some "arduino:avr:mega")] |}.

End Sample.

(** More sample data. *)
Module Sample2.

(** A valid configuration without a board has reached the provider; the
    selected Uno has no port, and a recognized Uno is available. *)
Definition boardless : t :=
  Sample.provider (Some Config.empty)
    {| Config.selectedBoard := Some Sample.uno; Config.selectedPort := None |}
    [] [Sample.serial "COM3"]
    [Sample.entry "Arduino Uno" (Some "arduino:avr:uno") (Sample.serial "COM3")
       State.recognized (Some false)]
    ∅.

(** Boards carry no package id. *)
Definition noPackageId (board : Board.t) : option string := None.

(** The Uno is selected on COM3, saved, unplugged, its package is
    uninstalled and installed again, and it is plugged in on COM4. *)
Definition session : list Operation :=
  [SetBoardsConfig (Sample.config Sample.uno (Sample.serial "COM3"));
   Settle;
   AttachedBoardsChanged [] [];
   PlatformUninstalled Sample.avr;
   PlatformInstalled Sample.avr "Arduino AVR Boards";
   AttachedBoardsChanged
     [Sample.attached "Arduino Uno" "arduino:avr:uno" (Sample.serial "COM4")]
     [Sample.serial "COM4"];
   TryReconnect;
   SaveState;
   LoadState None;
   Reconcile].

(** The Uno is selected on COM3, with COM3 and a network port available. *)
Definition unoOnCOM3 : t :=
  Sample.provider (Some (Sample.config Sample.uno (Sample.serial "COM3")))
    (Sample.config Sample.uno (Sample.serial "COM3"))
    [Sample.attached "Arduino Uno" "arduino:avr:uno" (Sample.serial "COM3");
     Sample.attached "Arduino Yun" "arduino:avr:yun" (Sample.network "192.168.0.9")]
    [Sample.serial "COM3"; Sample.serial "COM7"; Sample.network "192.168.0.9"]
    [] ∅.


(** A sketch file outside a sketch folder is picked and the move is
    confirmed. *)
Definition services : OpenSketch.Services :=
  {| OpenSketch.defaultPath := "/home/user/Arduino";
     OpenSketch.filePaths := ["/tmp/blink.ino"];
     OpenSketch.getUri := fun path => "file://" +:+ path;
     OpenSketch.getSketchFolder := fun _ => None;
     OpenSketch.isSketchFile := fun _ => true;
     OpenSketch.pathName := fun _ => "blink";
     OpenSketch.getName := fun _ => "blink.ino";
     OpenSketch.response := 1;
     OpenSketch.parentResolve := fun _ name => "file:///tmp/" +:+ name;
     OpenSketch.resolve := fun folder name => folder +:+ "/" +:+ name;
     OpenSketch.fileExists := fun _ => false;
     OpenSketch.getSketchFolderMoved :=
       fun folder => Some {| OpenSketch.name := "blink"; OpenSketch.uri := folder |};
     OpenSketch.loadSketch := fun _ => None |}.

(** The sketches service does not find the sketch. *)
Definition servicesNotFound : OpenSketch.Services :=
  {| OpenSketch.defaultPath := "/home/user/Arduino";
     OpenSketch.filePaths := [];
     OpenSketch.getUri := fun path => "file://" +:+ path;
     OpenSketch.getSketchFolder := fun _ => None;
     OpenSketch.isSketchFile := fun _ => true;
     OpenSketch.pathName := fun _ => "blink";
     OpenSketch.getName := fun _ => "blink.ino";
     OpenSketch.response := 0;
     OpenSketch.parentResolve := fun _ name => "file:///tmp/" +:+ name;
     OpenSketch.resolve := fun folder name => folder +:+ "/" +:+ name;
     OpenSketch.fileExists := fun _ => false;
     OpenSketch.getSketchFolderMoved := fun _ => None;
     OpenSketch.loadSketch :=
       fun _ => Some {| OpenSketch.notFound := true;
                        OpenSketch.message := "Sketch not found" |} |}.

(** The Uno is selected on COM3 before its package is installed. *)
Definition unoUnknown : t :=
  Sample.provider None (Sample.config Sample.unoWithoutFqbn (Sample.serial "COM3"))
    [] [Sample.serial "COM3"] [] ∅.

(** The Uno is selected on COM4 and nothing is attached. *)
Definition unoAlone : t :=
  Sample.provider None (Sample.config Sample.uno (Sample.serial "COM4"))
    [] [Sample.serial "COM4"] [] ∅.

End Sample2.

(** * Properties *)

(** ** Validation and the remembered configurations *)

Lemma truthy_spec (a : option string) :
  truthy a = true <-> exists s, a = Some s /\ s <> "".
Proof.
  destruct a as [s|]; simpl.
  - rewrite negb_true_iff. split.
    + intros H. exists s. split; [reflexivity|].
      intros ->. discriminate.
    + intros (s' & [= <-] & Hne). apply String.eqb_neq. exact Hne.
  - split; [discriminate | intros (s & [=] & _)].
Qed.

Lemma uploadable_spec (this : t) (config : Config.t) :
  uploadable this config = true <->
  exists board port,
    Config.selectedBoard config = Some board
    /\ Config.selectedPort config = Some port
    /\ truthy (Board.fqbn board) = true.
Proof.
  unfold uploadable, canUploadTo, canVerify, canVerifyBody. simpl.
  destruct (Config.selectedBoard config) as [board|] eqn:Hb; simpl.
  - destruct (Config.selectedPort config) as [port|] eqn:Hp; simpl.
    + destruct (truthy (Board.fqbn board)) eqn:Hf; simpl.
      * split; [|reflexivity]. intros _. exists board, port. auto.
      * split; [discriminate|]. intros (b & p & [= <-] & _ & H). congruence.
    + split; [discriminate|]. intros (b & p & _ & [=] & _).
  - split; [discriminate|]. intros (b & p & [=] & _).
Qed.

Lemma uploadable_independent (this this' : t) (config : Config.t) :
  uploadable this config = uploadable this' config.
Proof. reflexivity. Qed.

Lemma setBoardsConfig_fields (config : Config.t) (this : t) :
  _boardsConfig (setBoardsConfig config this) = config
  /\ _latestBoardsConfig (setBoardsConfig config this) = Some config
  /\ _latestValidBoardsConfig (setBoardsConfig config this)
     = (if uploadable this config then Some config else _latestValidBoardsConfig this).
Proof. repeat split. Qed.

(** Every remembered valid configuration after a run of sets was there
    before or is an uploadable member of the run. *)
Lemma latestValid_after_sets (configs : list Config.t) :
  forall (this : t) (c : Config.t),
    _latestValidBoardsConfig (fold_left (fun s c => setBoardsConfig c s) configs this) = Some c ->
    _latestValidBoardsConfig this = Some c
    \/ (In c configs /\ uploadable this c = true).
Proof.
  induction configs as [|config configs IH]; intros this c H; simpl in *.
  - left. exact H.
  - apply IH in H. destruct H as [H | [Hin Hup]].
    + simpl in H. destruct (uploadable this config) eqn:Hu.
      * injection H as <-. right. split; [left; reflexivity | exact Hu].
      * left. exact H.
    + right. split; [right; exact Hin | exact Hup].
Qed.

(** C2. Every [setBoardsConfig] makes the new configuration the current
    and the latest one; it becomes the latest valid one exactly when it is
    uploadable, that is, has a board with a non-empty FQBN and a port, and
    the latest valid one keeps its value otherwise. So over every run of
    sets a configuration whose board lacks an FQBN never becomes the latest
    valid configuration, port or no port. *)
Theorem setBoardsConfig_remembers :
  (forall (this : t) (config : Config.t),
      boardsConfig (set_boardsConfig config this) = config
      /\ latestBoardsConfig (set_boardsConfig config this) = Some config
      /\ (uploadable this config = true ->
          latestValidBoardsConfig (set_boardsConfig config this) = Some config)
      /\ (uploadable this config = false ->
          latestValidBoardsConfig (set_boardsConfig config this)
          = latestValidBoardsConfig this))
  /\ (forall (this : t) (config : Config.t),
         uploadable this config = true <->
         exists board port f,
           Config.selectedBoard config = Some board
           /\ Config.selectedPort config = Some port
           /\ Board.fqbn board = Some f /\ f <> "")
  /\ (forall (configs : list Config.t) (this : t) (c : Config.t) (board : Board.t),
         Config.selectedBoard c = Some board ->
         truthy (Board.fqbn board) = false ->
         latestValidBoardsConfig this <> Some c ->
         latestValidBoardsConfig
           (fold_left (fun s config => set_boardsConfig config s) configs this)
         <> Some c).
Proof.
  split; [|split].
  - intros this config.
    unfold boardsConfig, latestBoardsConfig, latestValidBoardsConfig, set_boardsConfig.
    destruct (setBoardsConfig_fields config this) as (H1 & H2 & H3).
    repeat split; auto.
    + intros Hu. rewrite H3, Hu. reflexivity.
    + intros Hu. rewrite H3, Hu. reflexivity.
  - intros this config. rewrite uploadable_spec. split.
    + intros (board & port & Hb & Hp & Hf).
      apply truthy_spec in Hf. destruct Hf as (f & Hf & Hne).
      exists board, port, f. auto.
    + intros (board & port & f & Hb & Hp & Hf & Hne).
      exists board, port. repeat split; auto.
      apply truthy_spec. exists f. auto.
  - intros configs this c board Hb Hf Hold Hnew.
    unfold latestValidBoardsConfig, set_boardsConfig in *.
    apply latestValid_after_sets in Hnew.
    destruct Hnew as [Hnew | [_ Hup]]; [contradiction|].
    apply uploadable_spec in Hup.
    destruct Hup as (b & p & Hb' & _ & Hf'). congruence.
Qed.

(** The port of a configuration does not help a board without FQBN: set
    after a valid configuration, it leaves that one remembered. *)
Lemma setBoardsConfig_remembers_witness :
  latestValidBoardsConfig
    (fold_left (fun s config => set_boardsConfig config s)
       [Sample.config Sample.uno (Sample.serial "COM3");
        Sample.config Sample.unoWithoutFqbn (Sample.serial "COM3")]
       (initial ∅ ∅))
  <> Some (Sample.config Sample.unoWithoutFqbn (Sample.serial "COM3")).
Proof.
  apply (proj2 (proj2 setBoardsConfig_remembers)) with (board := Sample.unoWithoutFqbn).
  - reflexivity.
  - reflexivity.
  - simpl. discriminate.
Defined.

(** ** Auto-reconnect *)



Lemma firstMatch_exact (latest : Config.t) (lb : Board.t) (lp : Port.t) (l : list Board.t) :
  Config.selectedBoard latest = Some lb ->
  Config.selectedPort latest = Some lp ->
  firstMatch (exactMatch latest) l = Normal (List.find (matchesExactly lb lp) l).
Proof.
  intros Hb Hp. induction l as [|board l IH]; simpl; [reflexivity|].
  unfold exactMatch at 1. rewrite Hb, Hp.
  unfold matchesExactly at 1, Port.sameAs.
  destruct (Board.port board) as [p|]; simpl;
    destruct (strictEq (Board.fqbn lb) (Board.fqbn board)
              && String.eqb (Board.name lb) (Board.name board)); simpl;
    try exact IH.
  destruct (String.eqb (Port.address lp) (Port.address p)
            && String.eqb (Port.protocol lp) (Port.protocol p)); [reflexivity | exact IH].
Qed.

Lemma firstMatch_relaxed (latest : Config.t) (lb : Board.t) (lp : Port.t) (l : list Board.t) :
  Config.selectedBoard latest = Some lb ->
  Config.selectedPort latest = Some lp ->
  firstMatch (relaxedMatch latest) l = Normal (List.find (matchesRelaxed lb lp) l).
Proof.
  intros Hb Hp. induction l as [|board l IH]; simpl; [reflexivity|].
  unfold relaxedMatch at 1. rewrite Hb, Hp.
  unfold matchesRelaxed at 1.
  destruct (strictEq (Board.fqbn lb) (Board.fqbn board)
            && String.eqb (Board.name lb) (Board.name board)); simpl; [|exact IH].
  destruct (Board.port board) as [p|]; simpl; [|exact IH].
  destruct (String.eqb (Port.protocol lp) (Port.protocol p)); [reflexivity | exact IH].
Qed.




(** ** Restoring the configuration at startup *)

(** C3. [loadState] adopts a stored valid configuration that is
    uploadable. With no stored valid configuration it adopts the stored
    latest configuration or, failing that, the one of the URL, and changes
    nothing when there is neither. A stored valid configuration that is not
    uploadable is only remembered: the current configuration stays and no
    fallback is tried. *)
Theorem loadState_priority (urlConfig : option Config.t) (this : t) :
  (forall valid : Config.t,
      storedConfigs this !! LATEST_VALID_BOARDS_CONFIG = Some valid ->
      uploadable this valid = true ->
      boardsConfig (loadState urlConfig this) = valid
      /\ latestValidBoardsConfig (loadState urlConfig this) = Some valid)
  /\ (forall fallback : Config.t,
         storedConfigs this !! LATEST_VALID_BOARDS_CONFIG = None ->
         (storedConfigs this !! LATEST_BOARDS_CONFIG = Some fallback
          \/ (storedConfigs this !! LATEST_BOARDS_CONFIG = None
              /\ urlConfig = Some fallback)) ->
         boardsConfig (loadState urlConfig this) = fallback
         /\ latestBoardsConfig (loadState urlConfig this) = Some fallback)
  /\ (storedConfigs this !! LATEST_VALID_BOARDS_CONFIG = None ->
      storedConfigs this !! LATEST_BOARDS_CONFIG = None ->
      urlConfig = None ->
      loadState urlConfig this = this)
  /\ (forall valid : Config.t,
         storedConfigs this !! LATEST_VALID_BOARDS_CONFIG = Some valid ->
         uploadable this valid = false ->
         boardsConfig (loadState urlConfig this) = boardsConfig this
         /\ latestValidBoardsConfig (loadState urlConfig this) = Some valid).
Proof.
  unfold loadState. repeat split.
  - rewrite H.
    rewrite (uploadable_independent _ this), H0. reflexivity.
  - rewrite H.
    rewrite (uploadable_independent _ this), H0. simpl.
    unfold latestValidBoardsConfig. simpl.
    rewrite (uploadable_independent _ this), H0. reflexivity.
  - rewrite H. destruct H0 as [-> | [-> ->]]; reflexivity.
  - rewrite H. destruct H0 as [-> | [-> ->]]; reflexivity.
  - intros Hv Hl ->. rewrite Hv, Hl. reflexivity.
  - rewrite H.
    rewrite (uploadable_independent _ this), H0. reflexivity.
  - rewrite H.
    rewrite (uploadable_independent _ this), H0. reflexivity.
Qed.

(** A store with an uploadable valid configuration and another latest
    one: the valid one is restored. *)
Lemma loadState_priority_witness :
  boardsConfig
    (loadState None
       (initial ∅
          (<[LATEST_BOARDS_CONFIG := Sample.config Sample.unoWithoutFqbn (Sample.serial "COM3")]>
             (<[LATEST_VALID_BOARDS_CONFIG := Sample.config Sample.uno (Sample.serial "COM5")]> ∅))))
  = Sample.config Sample.uno (Sample.serial "COM5").
Proof.
  apply (proj1 (loadState_priority None _)).
  - vm_compute. reflexivity.
  - vm_compute. reflexivity.
Defined.

(** A stored valid configuration without FQBN fails [canUploadTo], a
    stored latest configuration exists, and the current configuration after
    [loadState] is still the empty one. *)
Lemma loadState_fallback_counterexample :
  storedConfigs (initial ∅ Sample.staleStore) !! LATEST_VALID_BOARDS_CONFIG
  = Some (Sample.config Sample.unoWithoutFqbn (Sample.serial "COM5"))
  /\ uploadable (initial ∅ Sample.staleStore)
       (Sample.config Sample.unoWithoutFqbn (Sample.serial "COM5")) = false
  /\ storedConfigs (initial ∅ Sample.staleStore) !! LATEST_BOARDS_CONFIG
     = Some (Sample.config Sample.unoWithoutFqbn (Sample.serial "COM3"))
  /\ boardsConfig (loadState None (initial ∅ Sample.staleStore))
     <> Sample.config Sample.unoWithoutFqbn (Sample.serial "COM3")
  /\ boardsConfig (loadState None (initial ∅ Sample.staleStore)) = Config.empty.
Proof.
  repeat split; try (vm_compute; reflexivity).
  vm_compute. discriminate.
Qed.

(** ** [canVerify] and its default parameter *)

(** C10. An argument that is [undefined] takes the default: [canVerify]
    then checks the current configuration, returns [true] when that has a
    selected board and warns "No boards selected." when it has none and
    [silent] is off. The branch for an absent configuration returns [false]
    without a warning whatever [silent] is, and a warning is sent only for a
    configuration object without selected board with [silent] off. *)
Theorem canVerify_undefined :
  (forall (this : t) (options : option Options),
      canVerify this None options = canVerify this (Some (boardsConfig this)) options)
  /\ (forall this : t,
         Config.selectedBoard (boardsConfig this) = None ->
         canVerify this None (Some {| silent := false |}) = (false, [noneSelected]))
  /\ (forall (this : t) (options : option Options),
         is_Some (Config.selectedBoard (boardsConfig this)) ->
         canVerify this None options = (true, []))
  /\ (forall options : Options, canVerifyBody None options = (false, []))
  /\ (forall (config : option Config.t) (options : Options),
         snd (canVerifyBody config options) <> [] <->
         exists c, config = Some c
                   /\ Config.selectedBoard c = None
                   /\ silent options = false).
Proof.
  repeat split.
  - intros this H. unfold canVerify, canVerifyBody. simpl. rewrite H. reflexivity.
  - intros this options [b H]. unfold canVerify, canVerifyBody. simpl.
    rewrite H. reflexivity.
  - intros H. unfold canVerifyBody in H.
    destruct config as [c|]; [|contradiction].
    exists c. split; [reflexivity|].
    destruct (Config.selectedBoard c); [contradiction|].
    split; [reflexivity|].
    destruct (silent options); [contradiction | reflexivity].
  - intros (c & -> & Hb & Hs). unfold canVerifyBody.
    rewrite Hb, Hs. simpl. discriminate.
Qed.

(** With nothing selected, an [undefined] argument and [silent] off warn. *)
Lemma canVerify_undefined_witness :
  canVerify (initial ∅ ∅) None (Some {| silent := false |}) = (false, [noneSelected]).
Proof.
  apply (proj1 (proj2 canVerify_undefined)). reflexivity.
Defined.

(** Called with [undefined] and [silent] off, [canVerify] warns when
    nothing is selected and returns [true] when a board is. *)
Lemma canVerify_undefined_counterexample :
  canVerify (initial ∅ ∅) None (Some {| silent := false |}) <> (false, [])
  /\ fst (canVerify Sample.onCOM5 None (Some {| silent := false |})) = true.
Proof.
  split; [vm_compute; discriminate | reflexivity].
Qed.

(** ** Package uninstall *)

(** C8. Two Unos are attached and the one on COM4 is selected: the pass
    lists the Uno on COM3 first, the Uno on COM4 as recognized and selected.
    Uninstalling the package of the Uno then looks at the first available
    board that is the same as the selected one, finds it unselected, and
    strips the FQBN of the selection. *)
Theorem notifyPlatformUninstalled_two_boards :
  let this := reconcileAvailableBoards Utils.naturalCompare Sample.twoUnos in
  availableBoards this
  = [Sample.entry "Arduino Uno" (Some "arduino:avr:uno") (Sample.serial "COM3")
       State.recognized (Some false);
     Sample.entry "Arduino Uno" (Some "arduino:avr:uno") (Sample.serial "COM4")
       State.recognized (Some true)]
  /\ boardsConfig this = Sample.config Sample.uno (Sample.serial "COM4")
  /\ (exists board,
         In board (availableBoards this)
         /\ Board.sameAs board Sample.uno = true
         /\ Board.selected board = Some true
         /\ Board.state board = Some State.recognized)
  /\ boardsConfig (notifyPlatformUninstalled Sample.avr this)
     = Sample.config Sample.unoWithoutFqbn (Sample.serial "COM4").
Proof.
  repeat split; try (vm_compute; reflexivity).
  eexists. split; [right; left; reflexivity|].
  repeat split; vm_compute; reflexivity.
Qed.

(** ** Waiting for a board *)

Lemma run_app (w : Waiting) (before after : list Event) :
  run w (before ++ after) = run (run w before) after.
Proof. unfold run. apply fold_left_app. Qed.

Lemma step_leavesWaiting (w : Waiting) (e : Event) :
  waiting w -> leavesWaiting w e ->
  waiting (step w e) /\ what (step w e) = what w /\ timer (step w e) = timer w.
Proof.
  intros (H1 & H2 & H3 & H4) He. destruct e as [l|]; simpl in *.
  - rewrite H4, He. simpl. unfold waiting. simpl. auto.
  - rewrite He. unfold waiting. auto.
Qed.

Lemma run_leavesWaiting (events : list Event) :
  forall w : Waiting,
    waiting w -> Forall (leavesWaiting w) events ->
    waiting (run w events) /\ what (run w events) = what w
    /\ timer (run w events) = timer w.
Proof.
  induction events as [|e events IH]; intros w Hw Hall; simpl.
  - auto.
  - inversion Hall as [|e' events' He Hrest]; subst.
    destruct (step_leavesWaiting w e Hw He) as (Hw' & Hwhat & Htimer).
    destruct (IH (step w e) Hw') as (Hw'' & Hwhat' & Htimer').
    + eapply Forall_impl; [exact Hrest|].
      intros [l|]; unfold leavesWaiting; rewrite ?Hwhat, ?Htimer; auto.
    + unfold run in *. simpl. split; [exact Hw''|]. split; congruence.
Qed.

Lemma step_settled (w : Waiting) (e : Event) :
  returned w <> Pending -> returned (step w e) = returned w.
Proof.
  intros H. destruct e as [l|]; simpl.
  - destruct (listening w); [|reflexivity].
    destruct (findCandidate (what w) l); simpl; [|reflexivity].
    destruct (returned w); [contradiction | reflexivity | reflexivity].
  - destruct (timer w); simpl; [|reflexivity].
    destruct (returned w); [contradiction | reflexivity | reflexivity].
Qed.

Lemma run_settled (events : list Event) :
  forall w : Waiting, returned w <> Pending -> returned (run w events) = returned w.
Proof.
  induction events as [|e events IH]; intros w H; [reflexivity|].
  unfold run in *. simpl. rewrite IH; rewrite step_settled; auto.
Qed.



Lemma waitUntilAvailable_waiting (this : t) (board : Board.t) (timeout : option Z) :
  findCandidate board (availableBoards this) = None ->
  waiting (waitUntilAvailable this board timeout)
  /\ what (waitUntilAvailable this board timeout) = board.
Proof.
  intros H. unfold waitUntilAvailable. rewrite H. unfold waiting. simpl. auto.
Qed.




(** C4. A call with a timeout of 50 ms and no board to find: when the
    timer elapses the returned promise is rejected and the listener is
    still registered; the next time the emitter fires the listener runs, and
    it stays registered until a candidate comes. *)
Theorem waitUntilAvailable_timeout_keeps_listener :
  let w := waitUntilAvailable (initial ∅ ∅)
             (Sample.attached "Arduino Uno" "arduino:avr:uno" (Sample.serial "COM3"))
             (Some 50) in
  returned (run w [TimerElapses]) = Rejected (TimeoutAfter 50)
  /\ listening (run w [TimerElapses]) = true
  /\ listenerRuns (run w [TimerElapses; Fires []]) = 1%nat
  /\ listening (run w [TimerElapses; Fires []]) = true
  /\ listening
       (run w [Fires [Sample.attached "Arduino Uno" "arduino:avr:uno" (Sample.serial "COM3")]])
     = false.
Proof. repeat split. Qed.

(** ** Arrays: sorting, searching, removing *)

Lemma NoDup_cons_inv {B : Type} (x : B) (l : list B) :
  List.NoDup (x :: l) -> ~ In x l /\ List.NoDup l.
Proof. intros H. inversion H; subst. split; assumption. Qed.

Lemma NoDup_cons_intro {B : Type} (x : B) (l : list B) :
  ~ In x l -> List.NoDup l -> List.NoDup (x :: l).
Proof. intros Hx Hl. constructor; assumption. Qed.

Section ArrayFacts.
Context {A : Type}.

Lemma insert_Permutation (compareFn : A -> A -> Z) (x : A) (l : list A) :
  Permutation (JSArray.insert compareFn x l) (x :: l).
Proof.
  induction l as [|y l IH]; simpl.
  - apply Permutation_refl.
  - destruct (compareFn x y <=? 0).
    + apply Permutation_refl.
    + apply perm_trans with (y :: x :: l).
      * apply perm_skip, IH.
      * apply perm_swap.
Qed.

Lemma sort_Permutation (compareFn : A -> A -> Z) (l : list A) :
  Permutation (JSArray.sort compareFn l) l.
Proof.
  induction l as [|x l IH]; simpl.
  - apply Permutation_refl.
  - apply perm_trans with (x :: JSArray.sort compareFn l).
    + apply insert_Permutation.
    + apply perm_skip, IH.
Qed.

Lemma insert_sorted (compareFn : A -> A -> Z) (universe : list A) (x : A) (l : list A) :
  consistentOn compareFn universe ->
  In x universe -> (forall y, In y l -> In y universe) ->
  sortedBy compareFn l -> sortedBy compareFn (JSArray.insert compareFn x l).
Proof.
  intros [Htotal Htrans] Hx Hl Hs. induction l as [|y l IH]; simpl.
  - constructor; [constructor | constructor].
  - inversion Hs as [|y' l' Hs' Hy]; subst.
    destruct (Z.leb_spec (compareFn x y) 0) as [Hle | Hgt].
    + constructor; [exact Hs|].
      constructor; [exact Hle|].
      rewrite List.Forall_forall in Hy |- *. intros z Hz.
      apply (Htrans x y z); auto.
      * apply Hl. left. reflexivity.
      * apply Hl. right. exact Hz.
    + assert (Hyx : compareFn y x <= 0).
      { destruct (Htotal x y Hx (Hl y (or_introl eq_refl))); [lia | assumption]. }
      constructor.
      * apply IH; [|exact Hs']. intros z Hz. apply Hl. right. exact Hz.
      * rewrite List.Forall_forall in Hy |- *. intros z Hz.
        apply (Permutation_in _ (insert_Permutation compareFn x l)) in Hz.
        destruct Hz as [<- | Hz]; [exact Hyx|].
        apply Hy, Hz.
Qed.

Lemma sort_sorted (compareFn : A -> A -> Z) (l : list A) :
  consistentOn compareFn l -> sortedBy compareFn (JSArray.sort compareFn l).
Proof.
  intros Hc.
  assert (H : forall l', (forall y, In y l' -> In y l) ->
                         sortedBy compareFn (JSArray.sort compareFn l')).
  { induction l' as [|x l' IH]; intros Hsub; simpl.
    - constructor.
    - apply (insert_sorted compareFn l); auto.
      + apply Hsub. left. reflexivity.
      + intros y Hy.
        apply (Permutation_in _ (sort_Permutation compareFn l')) in Hy.
        apply Hsub. right. exact Hy.
      + apply IH. intros y Hy. apply Hsub. right. exact Hy. }
  apply H. auto.
Qed.

Lemma findIndex_lower (p : A -> bool) (l : list A) : -1 <= JSArray.findIndex p l.
Proof.
  induction l as [|x l IH]; simpl; [lia|].
  destruct (p x); [lia|].
  destruct (Z.ltb_spec (JSArray.findIndex p l) 0); lia.
Qed.

(** [findIndex] followed by [splice] removes the first match. *)
Lemma splice_findIndex (p : A -> bool) (l : list A) :
  (if JSArray.findIndex p l >=? 0
   then JSArray.splice1 (Z.to_nat (JSArray.findIndex p l)) l
   else l)
  = removeFirst p l.
Proof.
  induction l as [|x l IH]; simpl; [reflexivity|].
  destruct (p x); [reflexivity|].
  pose proof (findIndex_lower p l) as Hlow.
  destruct (Z.ltb_spec (JSArray.findIndex p l) 0) as [Hneg | Hpos].
  - simpl. f_equal. rewrite <- IH.
    destruct (Z.geb_spec (JSArray.findIndex p l) 0); [lia | reflexivity].
  - destruct (Z.geb_spec (JSArray.findIndex p l + 1) 0); [|lia].
    replace (Z.to_nat (JSArray.findIndex p l + 1))
      with (S (Z.to_nat (JSArray.findIndex p l))) by lia.
    simpl. f_equal. rewrite <- IH.
    destruct (Z.geb_spec (JSArray.findIndex p l) 0); [reflexivity | lia].
Qed.

Lemma removeFirst_In (p : A -> bool) (l : list A) (y : A) :
  In y (removeFirst p l) -> In y l.
Proof.
  induction l as [|x l IH]; simpl; [auto|].
  destruct (p x); simpl; intuition.
Qed.

Lemma removeFirst_none (p : A -> bool) (l : list A) :
  existsb p l = false -> removeFirst p l = l.
Proof.
  induction l as [|x l IH]; simpl; [reflexivity|].
  destruct (p x); simpl; [discriminate|]. intros H. f_equal. auto.
Qed.

Lemma removeFirst_NoDup {B : Type} (f : A -> B) (p : A -> bool) (l : list A) :
  List.NoDup (map f l) -> List.NoDup (map f (removeFirst p l)).
Proof.
  induction l as [|x l IH]; simpl; [auto|].
  intros H. apply NoDup_cons_inv in H. destruct H as [Hx Hl].
  destruct (p x); [exact Hl|]. simpl.
  apply NoDup_cons_intro; [|auto].
  intros Hin. apply Hx. apply in_map_iff in Hin.
  destruct Hin as (y & Hy & Hin). apply in_map_iff. exists y.
  split; [exact Hy|]. eapply removeFirst_In, Hin.
Qed.

(** With distinct keys, removing the first element with key [v] leaves no
    element with that key. *)
Lemma removeFirst_key {B : Type} (f : A -> B) (p : A -> bool) (v : B) (l : list A) :
  (forall x, p x = true <-> f x = v) ->
  List.NoDup (map f l) ->
  ~ In v (map f (removeFirst p l)).
Proof.
  intros Hp. induction l as [|x l IH]; simpl; [auto|].
  intros H. apply NoDup_cons_inv in H. destruct H as [Hx Hl].
  destruct (p x) eqn:Hpx.
  - apply Hp in Hpx. rewrite <- Hpx. exact Hx.
  - simpl. intros [Hv | Hv]; [|exact (IH Hl Hv)].
    apply Hp in Hv. congruence.
Qed.

Lemma filter_map_NoDup {B : Type} (f : A -> B) (p : A -> bool) (l : list A) :
  List.NoDup (map f l) -> List.NoDup (map f (List.filter p l)).
Proof.
  induction l as [|x l IH]; simpl; [auto|].
  intros H. apply NoDup_cons_inv in H. destruct H as [Hx Hl].
  destruct (p x); [|auto]. simpl.
  apply NoDup_cons_intro; [|auto].
  intros Hin. apply Hx. apply in_map_iff in Hin.
  destruct Hin as (y & Hy & Hin). apply in_map_iff. exists y.
  split; [exact Hy|]. apply filter_In in Hin. tauto.
Qed.

Lemma NoDup_map_eq {B : Type} (f : A -> B) (l : list A) (a b : A) :
  List.NoDup (map f l) -> In a l -> In b l -> f a = f b -> a = b.
Proof.
  induction l as [|x l IH]; simpl; [tauto|].
  intros H Ha Hb Hab. apply NoDup_cons_inv in H. destruct H as [Hx Hl].
  destruct Ha as [<- | Ha], Hb as [<- | Hb]; auto.
  - exfalso. apply Hx. rewrite Hab. apply in_map, Hb.
  - exfalso. apply Hx. rewrite <- Hab. apply in_map, Ha.
Qed.


End ArrayFacts.

(** ** Reconciliation *)

Lemma strictEq_eq (a b : option string) : strictEq a b = true <-> a = b.
Proof.
  destruct a as [x|], b as [y|]; simpl; split; try discriminate; try reflexivity.
  - intros H. apply String.eqb_eq in H. congruence.
  - intros [= ->]. apply String.eqb_refl.
Qed.


Lemma sameAs_eq (p q : Port.t) : Port.sameAs (Some p) (Some q) = true -> p = q.
Proof.
  unfold Port.sameAs. intros H. apply andb_true_iff in H. destruct H as [Ha Hp].
  apply String.eqb_eq in Ha, Hp. destruct p, q; simpl in *. congruence.
Qed.

Lemma sameAs_Some (a b : option Port.t) :
  Port.sameAs a b = true -> exists p q, a = Some p /\ b = Some q /\ p = q.
Proof.
  destruct a as [p|], b as [q|]; simpl; try discriminate.
  intros H. exists p, q. repeat split. apply sameAs_eq. exact H.
Qed.






(** The first statement of the pass leaves ports, attached boards and the
    store alone. *)
Lemma unsetMissingPort_fields (this : t) :
  _availablePorts (unsetMissingPort this) = _availablePorts this
  /\ _attachedBoards (unsetMissingPort this) = _attachedBoards this
  /\ storedBoards (unsetMissingPort this) = storedBoards this
  /\ _availableBoards (unsetMissingPort this) = _availableBoards this.
Proof.
  unfold unsetMissingPort.
  destruct (bool_decide (is_Some (Config.selectedPort (boardsConfig this)))
            && negb (existsb
                       (fun port => Port.sameAs (Some port)
                                      (Config.selectedPort (boardsConfig this)))
                       (_availablePorts this))); repeat split.
Qed.

Lemma availableBoardOn_port (this : t) (config : Config.t) (boardPort : Port.t) :
  Board.port (availableBoardOn this config boardPort) = Some boardPort.
Proof.
  unfold availableBoardOn.
  destruct (List.find _ (attachedWithPort this)); [reflexivity|].
  destruct (getLastSelectedBoardOnPort this boardPort); reflexivity.
Qed.

Lemma availableBoardOn_state (this : t) (config : Config.t) (boardPort : Port.t) :
  is_Some (Board.state (availableBoardOn this config boardPort)).
Proof.
  unfold availableBoardOn.
  destruct (List.find _ (attachedWithPort this)); [eexists; reflexivity|].
  destruct (getLastSelectedBoardOnPort this boardPort); eexists; reflexivity.
Qed.


Lemma availableBoardPorts_In (this : t) (port : Port.t) :
  In port (availableBoardPorts this) -> In port (_availablePorts this).
Proof. unfold availableBoardPorts. intros H. apply filter_In in H. tauto. Qed.



Lemma injectSelected_removeFirst (config : Config.t) (l : list Board.t) :
  injectSelected config l
  = match Config.selectedBoard config with
    | Some selectedBoard =>
        if negb (existsb (fun board => truthyFlag (Board.selected board)) l)
        then removeFirst
               (fun board => strictEq (Port.address_opt (Board.port board))
                                      (Port.address_opt (Config.selectedPort config)))
               l
             ++ [selectedEntry selectedBoard config]
        else l
    | None => l
    end.
Proof.
  unfold injectSelected. destruct (Config.selectedBoard config); [|reflexivity].
  destruct (negb (existsb _ l)); [|reflexivity].
  rewrite splice_findIndex. reflexivity.
Qed.



Lemma existsb_map_false (this : t) (config : Config.t) (ports : list Port.t) :
  (forall port, In port ports ->
     truthyFlag (Board.selected (availableBoardOn this config port)) = false) ->
  existsb (fun board => truthyFlag (Board.selected board))
          (map (availableBoardOn this config) ports) = false.
Proof.
  induction ports as [|port ports IH]; intros H; simpl; [reflexivity|].
  rewrite (H port (or_introl eq_refl)). simpl.
  apply IH. intros p Hp. apply H. right. exact Hp.
Qed.


Lemma candidates_addresses (this : t) (config : Config.t) (ports : list Port.t) :
  map AvailableBoard.addressOf (map (availableBoardOn this config) ports)
  = map Some (map Port.address ports).
Proof.
  induction ports as [|port ports IH]; simpl; [reflexivity|].
  unfold AvailableBoard.addressOf at 1. rewrite availableBoardOn_port. simpl.
  f_equal. exact IH.
Qed.

Lemma NoDup_map_Some {B : Type} (l : list B) :
  List.NoDup l -> List.NoDup (map Some l).
Proof.
  induction l as [|x l IH]; simpl; intros H; [constructor|].
  apply NoDup_cons_inv in H. destruct H as [Hx Hl].
  apply NoDup_cons_intro; [|auto].
  intros Hin. apply in_map_iff in Hin. destruct Hin as (y & [= ->] & Hy). auto.
Qed.

Lemma NoDup_snoc {B : Type} (l : list B) (x : B) :
  List.NoDup l -> ~ In x l -> List.NoDup (l ++ [x]).
Proof.
  intros Hl Hx. apply (Permutation_NoDup (l := x :: l)).
  - apply Permutation_cons_append.
  - apply NoDup_cons_intro; assumption.
Qed.

Lemma collect_addresses (this : t) :
  List.NoDup (map Port.address (_availablePorts this)) ->
  List.NoDup (map AvailableBoard.addressOf (collectAvailableBoards this)).
Proof.
  intros Hnd.
  assert (Hentries :
            List.NoDup (map AvailableBoard.addressOf
                          (map (availableBoardOn this (boardsConfig this))
                               (availableBoardPorts this)))).
  { rewrite candidates_addresses. apply NoDup_map_Some.
    unfold availableBoardPorts. apply filter_map_NoDup, Hnd. }
  unfold collectAvailableBoards. rewrite injectSelected_removeFirst.
  destruct (Config.selectedBoard (boardsConfig this)) as [sb|]; [|exact Hentries].
  destruct (negb (existsb _ _)); [|exact Hentries].
  rewrite List.map_app. simpl. apply NoDup_snoc.
  - apply removeFirst_NoDup, Hentries.
  - apply (removeFirst_key AvailableBoard.addressOf); [|exact Hentries].
    intros x. apply strictEq_eq.
Qed.

(** C6. When no two available ports have the same address, no two entries
    of the computed list have the same port address. When the selected board
    is pushed as an entry of its own, the first entry on the selected port
    address is removed before, and the pushed entry is then the only one on
    that address. *)
Theorem reconcile_distinct_addresses
    (naturalCompare : option string -> option string -> Z) (this : t) :
  List.NoDup (map Port.address (_availablePorts this)) ->
  List.NoDup (map AvailableBoard.addressOf (reconciled naturalCompare this))
  /\ (forall selectedBoard : Board.t,
         Config.selectedBoard (boardsConfig (unsetMissingPort this)) = Some selectedBoard ->
         (forall port,
             In port (availableBoardPorts (unsetMissingPort this)) ->
             truthyFlag
               (Board.selected
                  (availableBoardOn (unsetMissingPort this)
                     (boardsConfig (unsetMissingPort this)) port)) = false) ->
         let entry := selectedEntry selectedBoard (boardsConfig (unsetMissingPort this)) in
         collectAvailableBoards (unsetMissingPort this)
         = removeFirst
             (fun board =>
                strictEq (AvailableBoard.addressOf board) (AvailableBoard.addressOf entry))
             (map (availableBoardOn (unsetMissingPort this)
                     (boardsConfig (unsetMissingPort this)))
                  (availableBoardPorts (unsetMissingPort this)))
           ++ [entry]
         /\ In entry (reconciled naturalCompare this)
         /\ (forall board,
                In board (reconciled naturalCompare this) ->
                AvailableBoard.addressOf board = AvailableBoard.addressOf entry ->
                board = entry)).
Proof.
  intros Hnd.
  assert (Hout : List.NoDup (map AvailableBoard.addressOf (reconciled naturalCompare this))).
  { unfold reconciled.
    apply (Permutation_NoDup
             (l := map AvailableBoard.addressOf (collectAvailableBoards (unsetMissingPort this)))).
    - apply Permutation_map, Permutation_sym, sort_Permutation.
    - apply collect_addresses.
      destruct (unsetMissingPort_fields this) as (-> & _). exact Hnd. }
  split; [exact Hout|].
  intros selectedBoard Hsb Hnone entry.
  assert (Hcollect :
            collectAvailableBoards (unsetMissingPort this)
            = removeFirst
                (fun board =>
                   strictEq (AvailableBoard.addressOf board) (AvailableBoard.addressOf entry))
                (map (availableBoardOn (unsetMissingPort this)
                        (boardsConfig (unsetMissingPort this)))
                     (availableBoardPorts (unsetMissingPort this)))
              ++ [entry]).
  { unfold collectAvailableBoards. rewrite injectSelected_removeFirst, Hsb.
    rewrite (existsb_map_false _ _ _ Hnone). reflexivity. }
  assert (Hin : In entry (reconciled naturalCompare this)).
  { unfold reconciled.
    apply (Permutation_in _ (Permutation_sym (sort_Permutation _ _))).
    rewrite Hcollect. apply in_or_app. right. left. reflexivity. }
  split; [exact Hcollect|]. split; [exact Hin|].
  intros board Hboard Haddr.
  exact (NoDup_map_eq AvailableBoard.addressOf _ board entry Hout Hboard Hin Haddr).
Qed.



(** Two Unos on COM3 and COM4: two entries, two addresses. *)
Lemma reconcile_distinct_addresses_witness :
  List.NoDup (map AvailableBoard.addressOf (reconciled Utils.naturalCompare Sample.twoUnos)).
Proof.
  apply (reconcile_distinct_addresses Utils.naturalCompare Sample.twoUnos).
  repeat constructor; simpl; intuition discriminate.
Defined.

(** A serial and a network port with the address A give two entries on A. *)
Lemma reconcile_distinct_addresses_counterexample :
  map AvailableBoard.addressOf (reconciled Utils.naturalCompare Sample.sharedAddress)
  = [Some "A"; Some "A"]
  /\ List.NoDup (_availablePorts Sample.sharedAddress).
Proof.
  split; [vm_compute; reflexivity|].
  repeat constructor; simpl; intuition discriminate.
Qed.

(** ** The order of the available boards *)

Lemma compare_agrees (naturalCompare : option string -> option string -> Z)
    (left right : Board.t) :
  strictEq (AvailableBoard.protocolOf left) (AvailableBoard.protocolOf right) = true
  \/ protocolClass left <> 2 \/ protocolClass right <> 2 ->
  AvailableBoard.compare naturalCompare left right
  = compareAsSpecified naturalCompare left right.
Proof.
  unfold AvailableBoard.compare, compareAsSpecified, protocolClass.
  destruct (AvailableBoard.protocolOf left) as [pl|],
           (AvailableBoard.protocolOf right) as [pr|];
    simpl;
    repeat match goal with
           | |- context [String.eqb ?a ?b] => destruct (String.eqb_spec a b); subst; simpl
           end;
    try discriminate; try congruence;
    intros H;
    try (destruct (State.lt (Board.state left) (Board.state right)),
                  (State.lt (Board.state right) (Board.state left)); reflexivity);
    try (exfalso; destruct H as [H | [H | H]]; congruence).
Qed.

Lemma compare_other (naturalCompare : option string -> option string -> Z)
    (left right : Board.t) :
  protocolClass left = 2 -> protocolClass right = 2 ->
  strictEq (AvailableBoard.protocolOf left) (AvailableBoard.protocolOf right) = false ->
  AvailableBoard.compare naturalCompare left right
  = naturalCompare (AvailableBoard.addressOf left) (AvailableBoard.addressOf right).
Proof.
  unfold AvailableBoard.compare, protocolClass.
  destruct (strictEq (AvailableBoard.protocolOf left) (Some "serial")); [discriminate|].
  destruct (strictEq (AvailableBoard.protocolOf left) (Some "network")); [discriminate|].
  destruct (strictEq (AvailableBoard.protocolOf right) (Some "serial")); [discriminate|].
  destruct (strictEq (AvailableBoard.protocolOf right) (Some "network")); [discriminate|].
  intros _ _ ->. reflexivity.
Qed.

(** C7. [AvailableBoard.compare] is the described order (serial before
    the rest, then network before the rest, then recognized before guessed
    before incomplete, then the natural comparison of the addresses) on two
    boards of one protocol and whenever one of them is serial or network; two
    boards of different protocols that are neither are compared by address
    alone. The computed list is a permutation of the collected entries, and
    it is sorted by [AvailableBoard.compare] whenever that orders the entries
    consistently. Boards on serial A (recognized), serial B (guessed),
    network C and usb D (recognized) come out as A, B, C, D, in whatever order
    the ports are listed. *)
Theorem reconcile_sorted
    (naturalCompare : option string -> option string -> Z) :
  (forall left right : Board.t,
      (strictEq (AvailableBoard.protocolOf left) (AvailableBoard.protocolOf right) = true
       \/ protocolClass left <> 2 \/ protocolClass right <> 2 ->
       AvailableBoard.compare naturalCompare left right
       = compareAsSpecified naturalCompare left right)
      /\ (protocolClass left = 2 -> protocolClass right = 2 ->
          strictEq (AvailableBoard.protocolOf left) (AvailableBoard.protocolOf right) = false ->
          AvailableBoard.compare naturalCompare left right
          = naturalCompare (AvailableBoard.addressOf left) (AvailableBoard.addressOf right)))
  /\ (forall this : t,
         Permutation (reconciled naturalCompare this)
                     (collectAvailableBoards (unsetMissingPort this))
         /\ (consistentOn (AvailableBoard.compare naturalCompare)
                          (collectAvailableBoards (unsetMissingPort this)) ->
             sortedBy (AvailableBoard.compare naturalCompare)
                      (reconciled naturalCompare this)))
  /\ (forall ports : list Port.t,
         Permutation
           [Sample.serial "A"; Sample.serial "B"; Sample.network "C"; Sample.usb "D"]
           ports ->
         reconciled naturalCompare (Sample.fourBoards ports) = Sample.fourBoardsSorted).
Proof.
  split; [|split].
  - intros left right. split.
    + apply compare_agrees.
    + apply compare_other.
  - intros this. split.
    + apply sort_Permutation.
    + apply sort_sorted.
  - intros ports Hperm. apply permutations_Permutation in Hperm.
    set (all := permutations _) in Hperm. vm_compute in all. subst all.
    repeat match goal with
           | H : _ ∈ _ :: _ |- _ => apply elem_of_cons in H; destruct H as [-> | H]
           | H : _ ∈ [] |- _ => apply elem_of_nil in H; destruct H
           end;
      vm_compute; reflexivity.
Qed.

(** The two Unos on COM3 and COM4 are ordered consistently, and sorted. *)
Lemma reconcile_sorted_witness :
  sortedBy (AvailableBoard.compare Utils.naturalCompare)
           (reconciled Utils.naturalCompare Sample.twoUnos).
Proof.
  apply (proj2 (proj1 (proj2 (reconcile_sorted Utils.naturalCompare)) Sample.twoUnos)).
  split.
  - intros a b Ha Hb. vm_compute in Ha, Hb.
    destruct Ha as [<- | [<- | []]], Hb as [<- | [<- | []]];
      vm_compute; intuition discriminate.
  - intros a b c Ha Hb Hc. vm_compute in Ha, Hb, Hc.
    destruct Ha as [<- | [<- | []]], Hb as [<- | [<- | []]], Hc as [<- | [<- | []]];
      vm_compute; intuition discriminate.
Defined.

(** The selected Uno on ble A is incomplete, the Teensy on usb B is
    recognized; neither protocol is serial or network, and the incomplete
    entry comes first, against the described order. *)
Lemma reconcile_sorted_counterexample :
  reconciled Utils.naturalCompare Sample.mixedProtocols
  = [Sample.entry "Arduino Uno" (Some "arduino:avr:uno") (Sample.ble "A")
       State.incomplete (Some true);
     Sample.entry "Teensy" (Some "teensy:avr:teensy40") (Sample.usb "B")
       State.recognized (Some false)]
  /\ compareAsSpecified Utils.naturalCompare
       (Sample.entry "Arduino Uno" (Some "arduino:avr:uno") (Sample.ble "A")
          State.incomplete (Some true))
       (Sample.entry "Teensy" (Some "teensy:avr:teensy40") (Sample.usb "B")
          State.recognized (Some false))
     = 1.
Proof. split; vm_compute; reflexivity. Qed.

(** * Further properties *)

(** ** More on validation *)

Lemma canUploadTo_result (this : t) (config : option Config.t) (options : option Options) :
  fst (canUploadTo this config options)
  = uploadable this (default (boardsConfig this) config).
Proof.
  unfold uploadable, canUploadTo, canVerify, canVerifyBody. simpl.
  destruct (Config.selectedBoard (default (boardsConfig this) config)) as [board|]; simpl;
    [|reflexivity].
  destruct (Config.selectedPort (default (boardsConfig this) config)); simpl; [|reflexivity].
  destruct (truthy (Board.fqbn board)); reflexivity.
Qed.

(** X1. [canVerify] and [canUploadTo] return the same whatever [options]
    are passed, and a configuration that can be uploaded to can be verified. *)
Theorem canUploadTo_implies_canVerify (this : t) (config : option Config.t)
    (options options' : option Options) :
  fst (canUploadTo this config options) = fst (canUploadTo this config options')
  /\ fst (canVerify this config options) = fst (canVerify this config options')
  /\ (fst (canUploadTo this config options) = true ->
      fst (canVerify this config options') = true).
Proof.
  split; [|split].
  - rewrite !canUploadTo_result. reflexivity.
  - unfold canVerify, canVerifyBody. simpl.
    destruct (Config.selectedBoard (default (boardsConfig this) config)); reflexivity.
  - rewrite canUploadTo_result. intros H. apply uploadable_spec in H.
    destruct H as (board & port & Hb & _). unfold canVerify, canVerifyBody. simpl.
    rewrite Hb. reflexivity.
Qed.

(** X2. [canUploadTo] warns at most once, about the first thing that is
    missing: the board, then the port, then the FQBN; it sends no warning when
    [silent] is on (the default) or the configuration is uploadable. *)
Theorem canUploadTo_warnings (this : t) (config : option Config.t) (options : option Options) :
  let effective := default (boardsConfig this) config in
  let quiet := silent (default {| silent := true |} options) in
  snd (canUploadTo this config options)
  = if quiet then []
    else match Config.selectedBoard effective with
         | None => [noneSelected]
         | Some board =>
             match Config.selectedPort effective with
             | None => [noPortsSelected (Board.name board)]
             | Some _ =>
                 if truthy (Board.fqbn board) then []
                 else [noFQBN (Board.name board)]
             end
         end.
Proof.
  unfold canUploadTo, canVerify, canVerifyBody. simpl.
  destruct (Config.selectedBoard (default (boardsConfig this) config)) as [board|]; simpl.
  - destruct (Config.selectedPort (default (boardsConfig this) config)); simpl.
    + destruct (truthy (Board.fqbn board)); simpl;
        destruct (silent (default {| silent := true |} options)); reflexivity.
    + destruct (silent (default {| silent := true |} options)); reflexivity.
  - destruct (silent (default {| silent := true |} options)); reflexivity.
Qed.

(** X3. [selectedBoardUserFields] asks the boards service exactly when
    the current configuration is uploadable, with the FQBN of the selected
    board and the protocol of the selected port; otherwise it returns the
    empty list without asking. *)
Theorem selectedBoardUserFields_request (this : t) :
  (uploadable this (boardsConfig this) = false ->
   userFieldsRequest this = None
   /\ forall (F : Type) (service : string -> string -> list F),
        selectedBoardUserFields service this = [])
  /\ (forall board port,
         uploadable this (boardsConfig this) = true ->
         Config.selectedBoard (boardsConfig this) = Some board ->
         Config.selectedPort (boardsConfig this) = Some port ->
         exists fqbn,
           Board.fqbn board = Some fqbn /\ fqbn <> ""
           /\ userFieldsRequest this = Some (fqbn, Port.protocol port)
           /\ forall (F : Type) (service : string -> string -> list F),
                selectedBoardUserFields service this = service fqbn (Port.protocol port)).
Proof.
  unfold selectedBoardUserFields, userFieldsRequest, boardsConfig. split.
  - intros H.
    assert (Hreq : match Config.selectedBoard (_boardsConfig this),
                         Config.selectedPort (_boardsConfig this) with
                   | Some selectedBoard, Some selectedPort =>
                       match Board.fqbn selectedBoard with
                       | Some fqbn => if negb (truthy (Some fqbn)) then None
                                      else Some (fqbn, Port.protocol selectedPort)
                       | None => None
                       end
                   | _, _ => None
                   end = None).
    { destruct (Config.selectedBoard (_boardsConfig this)) as [b|] eqn:Hb; [|reflexivity].
      destruct (Config.selectedPort (_boardsConfig this)) as [p|] eqn:Hp; [|reflexivity].
      destruct (Board.fqbn b) as [f|] eqn:Hf; [|reflexivity].
      destruct (truthy (Some f)) eqn:Ht; [|reflexivity].
      exfalso. assert (uploadable this (_boardsConfig this) = true); [|congruence].
      apply uploadable_spec. exists b, p. rewrite Hf. auto. }
    rewrite Hreq. split; reflexivity.
  - intros board port H Hb Hp. apply uploadable_spec in H.
    destruct H as (b & p & Hb' & Hp' & Hf). unfold boardsConfig in *.
    assert (b = board) by congruence. subst b.
    pose proof Hf as Hf'. apply truthy_spec in Hf'. destruct Hf' as (f & Hfq & Hne).
    exists f. rewrite Hb, Hp, Hfq. rewrite Hfq in Hf. rewrite Hf. simpl. auto.
Qed.

(** ** The remembered valid configuration stays uploadable *)

Lemma setBoardsConfig_rememberedUploadable (config : Config.t) (this : t) :
  rememberedUploadable this -> rememberedUploadable (setBoardsConfig config this).
Proof.
  intros [H1 H2]. split; simpl.
  - intros v. destruct (uploadable this config) eqn:Hu.
    + intros [= <-]. exact Hu.
    + apply H1.
  - exact H2.
Qed.

Lemma fire_rememberedUploadable (n : Notification) (this : t) :
  rememberedUploadable this -> rememberedUploadable (fire n this).
Proof. intros [H1 H2]. split; assumption. Qed.

Lemma unsetMissingPort_rememberedUploadable (this : t) :
  rememberedUploadable this -> rememberedUploadable (unsetMissingPort this).
Proof.
  intros H. unfold unsetMissingPort.
  destruct (_ && _); [|exact H].
  apply fire_rememberedUploadable, setBoardsConfig_rememberedUploadable, H.
Qed.

Lemma reconcile_rememberedUploadable
    (naturalCompare : option string -> option string -> Z) (this : t) :
  rememberedUploadable this ->
  rememberedUploadable (reconcileAvailableBoards naturalCompare this).
Proof.
  intros H. apply unsetMissingPort_rememberedUploadable in H.
  unfold reconcileAvailableBoards.
  destruct (hasChanged _ _ _); [|exact H].
  destruct H as [H1 H2]. split; assumption.
Qed.

Lemma saveState_stored (this : t) :
  storedConfigs (saveState this) !! LATEST_VALID_BOARDS_CONFIG = _latestValidBoardsConfig this
  /\ storedConfigs (saveState this) !! LATEST_BOARDS_CONFIG = _latestBoardsConfig this.
Proof.
  assert (Hne : LATEST_BOARDS_CONFIG <> LATEST_VALID_BOARDS_CONFIG) by discriminate.
  simpl. unfold setData. split.
  - destruct (_latestBoardsConfig this);
      [rewrite lookup_insert_ne by exact Hne | rewrite lookup_delete_ne by exact Hne];
      destruct (_latestValidBoardsConfig this);
      [apply lookup_insert_eq | apply lookup_delete_eq
       | apply lookup_insert_eq | apply lookup_delete_eq].
  - destruct (_latestBoardsConfig this); [apply lookup_insert_eq | apply lookup_delete_eq].
Qed.

Lemma saveState_rememberedUploadable (this : t) :
  rememberedUploadable this -> rememberedUploadable (saveState this).
Proof.
  intros [H1 H2]. split.
  - exact H1.
  - intros v Hv. rewrite (proj1 (saveState_stored this)) in Hv. apply H1, Hv.
Qed.

Lemma loadState_rememberedUploadable (urlConfig : option Config.t) (this : t) :
  rememberedUploadable this -> rememberedUploadable (loadState urlConfig this).
Proof.
  intros H. unfold loadState.
  destruct (storedConfigs this !! LATEST_VALID_BOARDS_CONFIG) as [v|] eqn:Hv.
  - pose proof H as [H1 H2].
    assert (Hw : rememberedUploadable (with_latestValidBoardsConfig (Some v) this)).
    { split; simpl; [|exact H2]. intros v' [= <-]. apply H2, Hv. }
    destruct (uploadable _ v); [|exact Hw].
    apply setBoardsConfig_rememberedUploadable, Hw.
  - destruct (match storedConfigs this !! LATEST_BOARDS_CONFIG with
              | Some config => Some config
              | None => urlConfig
              end); [|exact H].
    apply setBoardsConfig_rememberedUploadable.
    destruct H as [H1 H2]. split; assumption.
Qed.

Lemma tryReconnect_rememberedUploadable (this : t) :
  rememberedUploadable this ->
  exists (adopted : bool) (this' : t),
    tryReconnect this = Normal (adopted, this') /\ rememberedUploadable this'.
Proof.
  intros H. pose proof H as [H1 _].
  destruct (_latestValidBoardsConfig this) as [latest|] eqn:Hlatest.
  - pose proof (H1 latest eq_refl) as Hup. apply uploadable_spec in Hup.
    destruct Hup as (lb & lp & Hb & Hp & _).
    unfold tryReconnect. rewrite Hlatest.
    destruct (negb (uploadable this (boardsConfig this))); [|eauto].
    rewrite (firstMatch_exact latest lb lp _ Hb Hp).
    rewrite (firstMatch_relaxed latest lb lp _ Hb Hp).
    destruct (List.find (matchesExactly lb lp) _).
    + eexists _, _. split; [reflexivity|].
      apply setBoardsConfig_rememberedUploadable, H.
    + destruct (List.find (matchesRelaxed lb lp) _).
      * eexists _, _. split; [reflexivity|].
        apply setBoardsConfig_rememberedUploadable, H.
      * eauto.
  - unfold tryReconnect. rewrite Hlatest. eauto.
Qed.

Lemma uninstalled_rememberedUploadable (item : BoardsPackage) (this : t) :
  rememberedUploadable this -> rememberedUploadable (notifyPlatformUninstalled item this).
Proof.
  intros H. unfold notifyPlatformUninstalled.
  destruct (Config.selectedBoard (boardsConfig this)) as [sb|]; [|exact H].
  destruct (truthy (Board.fqbn sb)); [|exact H].
  destruct (List.find _ (boards item)) as [ub|]; [|exact H].
  destruct (strictEq (Board.fqbn ub) (Board.fqbn sb)); [|exact H].
  destruct (match (if AvailableBoard.is_ sb then Some sb else _) with
            | Some board => _ | None => false end); [exact H|].
  apply setBoardsConfig_rememberedUploadable, H.
Qed.

Lemma installed_rememberedUploadable (packageIdOf : Board.t -> option string)
    (item : BoardsPackage) (itemName : string) (this : t) :
  rememberedUploadable this ->
  rememberedUploadable (fst (notifyPlatformInstalled packageIdOf item itemName this)).
Proof.
  intros H. unfold notifyPlatformInstalled.
  destruct (Config.selectedBoard (boardsConfig this)) as [sb|]; [|exact H].
  destruct (match List.find _ (boards item) with Some board => _ | None => false end);
    [apply setBoardsConfig_rememberedUploadable, H|].
  destruct (_ && _); apply setBoardsConfig_rememberedUploadable, H.
Qed.

Lemma exec_rememberedUploadable (packageIdOf : Board.t -> option string)
    (naturalCompare : option string -> option string -> Z) (op : Operation) (this : t) :
  rememberedUploadable this ->
  exists this', exec packageIdOf naturalCompare op this = Normal this'
                /\ rememberedUploadable this'.
Proof.
  intros H. destruct op; simpl.
  - eexists. split; [reflexivity|]. apply setBoardsConfig_rememberedUploadable, H.
  - eexists. split; [reflexivity|]. unfold boardsConfigSettled.
    apply fire_rememberedUploadable, reconcile_rememberedUploadable,
      saveState_rememberedUploadable, H.
  - eexists. split; [reflexivity|]. apply saveState_rememberedUploadable, H.
  - eexists. split; [reflexivity|]. apply loadState_rememberedUploadable, H.
  - eexists. split; [reflexivity|]. apply reconcile_rememberedUploadable, H.
  - destruct (tryReconnect_rememberedUploadable this H) as (a & this' & -> & H').
    eauto.
  - unfold notifyAttachedBoardsChanged.
    match goal with
    | |- context [tryReconnect ?s] =>
        destruct (tryReconnect_rememberedUploadable s) as (a & this' & -> & H')
    end; [|eauto].
    apply reconcile_rememberedUploadable, fire_rememberedUploadable.
    destruct H as [H1 H2]. split; assumption.
  - eexists. split; [reflexivity|]. apply installed_rememberedUploadable, H.
  - eexists. split; [reflexivity|]. apply uninstalled_rememberedUploadable, H.
Qed.

(** X4. From a provider whose remembered valid configuration, in memory
    and in the store, is uploadable, no sequence of operations (setting the
    configuration, its deferred chain, saving, loading, a pass, a reconnect,
    attach, install and uninstall events) throws, and the remembered valid
    configuration stays uploadable. *)
Theorem provider_never_throws (packageIdOf : Board.t -> option string)
    (naturalCompare : option string -> option string -> Z)
    (ops : list Operation) (this : t) :
  rememberedUploadable this ->
  exists this', execAll packageIdOf naturalCompare ops this = Normal this'
                /\ rememberedUploadable this'.
Proof.
  revert this. induction ops as [|op ops IH]; intros this H; simpl.
  - eauto.
  - destruct (exec_rememberedUploadable packageIdOf naturalCompare op this H)
      as (this' & -> & H').
    apply IH, H'.
Qed.

Lemma initial_rememberedUploadable (boardStore : gmap string Board.t)
    (configStore : gmap string Config.t) :
  (forall v, configStore !! LATEST_VALID_BOARDS_CONFIG = Some v ->
             uploadable (initial boardStore configStore) v = true) ->
  rememberedUploadable (initial boardStore configStore).
Proof. intros H. split; [discriminate | exact H]. Qed.

(** X5. When the remembered valid configuration has no board, the current
    configuration is not uploadable and some available board is not
    incomplete, [tryReconnect] throws a [TypeError]. *)
Theorem tryReconnect_throws (this : t) (latest : Config.t) (board : Board.t) :
  latestValidBoardsConfig this = Some latest ->
  Config.selectedBoard latest = None ->
  uploadable this (boardsConfig this) = false ->
  In board (availableBoards this) ->
  notIncomplete board = true ->
  tryReconnect this = Throw TypeError.
Proof.
  unfold latestValidBoardsConfig. intros Hlatest Hb Hcur Hin Hni.
  unfold tryReconnect. rewrite Hlatest, Hcur. simpl.
  assert (Hf : In board (List.filter notIncomplete (availableBoards this)))
    by (apply filter_In; auto).
  destruct (List.filter notIncomplete (availableBoards this)) as [|x l]; [destruct Hf|].
  simpl. unfold exactMatch. rewrite Hb. reflexivity.
Qed.

(** ** What a reconnect leaves behind *)

Lemma firstMatch_Some (test : Board.t -> Completion bool) (l : list Board.t) (b : Board.t) :
  firstMatch test l = Normal (Some b) -> In b l /\ test b = Normal true.
Proof.
  induction l as [|x l IH]; simpl; [discriminate|].
  destruct (test x) as [[|]|e] eqn:Hx; [| |discriminate].
  - intros [= <-]. auto.
  - intros H. destruct (IH H). auto.
Qed.

Lemma tryReconnect_result (this this' : t) (adopted : bool) :
  tryReconnect this = Normal (adopted, this') ->
  (adopted = false -> this' = this)
  /\ (adopted = true ->
      exists (latest : Config.t) (lb : Board.t) (lp p : Port.t) (board : Board.t),
        latestValidBoardsConfig this = Some latest
        /\ latest = {| Config.selectedBoard := Some lb; Config.selectedPort := Some lp |}
        /\ uploadable this (boardsConfig this) = false
        /\ In board (availableBoards this)
        /\ Board.state board <> Some State.incomplete
        /\ Board.port board = Some p
        /\ Board.name board = Board.name lb
        /\ Board.fqbn board = Board.fqbn lb
        /\ Port.protocol p = Port.protocol lp
        /\ this' = set_boardsConfig
                     {| Config.selectedBoard := Some lb; Config.selectedPort := Some p |} this
        /\ (uploadable this latest = true ->
            uploadable this' (boardsConfig this') = true
            /\ latestValidBoardsConfig this' = Some (boardsConfig this'))).
Proof.
  unfold tryReconnect, latestValidBoardsConfig.
  destruct (_latestValidBoardsConfig this) as [latest|] eqn:Hlatest;
    [|intros [= <- <-]; split; [reflexivity | discriminate]].
  destruct (uploadable this (boardsConfig this)) eqn:Hcur; simpl;
    [intros [= <- <-]; split; [reflexivity | discriminate]|].
  assert (Hstate : forall b, notIncomplete b = true -> Board.state b <> Some State.incomplete).
  { intros b Hb Hs. unfold notIncomplete in Hb. rewrite Hs in Hb. discriminate. }
  assert (Hadopt : forall lb p, Config.selectedBoard latest = Some lb ->
            uploadable this latest = true ->
            let this'' := set_boardsConfig
                            {| Config.selectedBoard := Some lb; Config.selectedPort := Some p |}
                            this in
            uploadable this'' (boardsConfig this'') = true
            /\ _latestValidBoardsConfig this'' = Some (boardsConfig this'')).
  { intros lb p Hlb Hup.
    assert (Hnew : uploadable this
                     {| Config.selectedBoard := Some lb; Config.selectedPort := Some p |} = true).
    { apply uploadable_spec in Hup. destruct Hup as (b & q & Hb & _ & Hf).
      apply uploadable_spec. exists lb, p. repeat split. congruence. }
    simpl. rewrite Hnew. split; [exact Hnew | reflexivity]. }
  destruct (firstMatch (exactMatch latest) _) as [[b|]|e] eqn:Hexact; [| |discriminate].
  - intros [= <- <-]. split; [discriminate|]. intros _.
    apply firstMatch_Some in Hexact. destruct Hexact as [Hin Hm].
    apply filter_In in Hin. destruct Hin as [Hin Hni].
    unfold exactMatch in Hm.
    destruct latest as [[lb|] olp]; simpl in Hm; [|discriminate].
    injection Hm as Hm. apply andb_true_iff in Hm. destruct Hm as [Hm Hport].
    apply andb_true_iff in Hm. destruct Hm as [Hfqbn Hname].
    apply sameAs_Some in Hport. destruct Hport as (lp & q & -> & Hq & ->).
    apply strictEq_eq in Hfqbn. apply String.eqb_eq in Hname.
    exists {| Config.selectedBoard := Some lb; Config.selectedPort := Some q |}, lb, q, q, b.
    repeat split; auto; intros; eapply Hadopt; eauto.
  - destruct (firstMatch (relaxedMatch latest) _) as [[b|]|e] eqn:Hrelaxed; [| |discriminate].
    + intros [= <- <-]. split; [discriminate|]. intros _.
      apply firstMatch_Some in Hrelaxed. destruct Hrelaxed as [Hin Hm].
      apply filter_In in Hin. destruct Hin as [Hin Hni].
      unfold relaxedMatch in Hm.
      destruct latest as [[lb|] olp]; simpl in Hm; [|discriminate].
      destruct (strictEq (Board.fqbn lb) (Board.fqbn b)
                && String.eqb (Board.name lb) (Board.name b)) eqn:Hfn; [|discriminate].
      destruct olp as [lp|]; [|discriminate].
      injection Hm as Hm.
      apply andb_true_iff in Hfn. destruct Hfn as [Hfqbn Hname].
      apply strictEq_eq in Hfqbn. apply String.eqb_eq in Hname.
      destruct (Board.port b) as [p|] eqn:Hp; simpl in Hm; [|discriminate].
      apply String.eqb_eq in Hm.
      exists {| Config.selectedBoard := Some lb; Config.selectedPort := Some lp |}, lb, lp, p, b.
      repeat split; auto; intros; eapply Hadopt; eauto.
    + intros [= <- <-]. split; [reflexivity | discriminate].
Qed.

(** X6. A [tryReconnect] that returns [false] leaves the provider as it
    was. One that returns [true] has set the remembered board on the port of
    an available board that is not incomplete and has the remembered name, FQBN
    and protocol; if the remembered configuration was uploadable, so is the new
    one, and it is the remembered valid configuration from then on. *)
Theorem tryReconnect_outcome (this this' : t) (adopted : bool) :
  tryReconnect this = Normal (adopted, this') ->
  (adopted = false -> this' = this)
  /\ (adopted = true ->
      exists (latest : Config.t) (lb : Board.t) (lp p : Port.t) (board : Board.t),
        latestValidBoardsConfig this = Some latest
        /\ latest = {| Config.selectedBoard := Some lb; Config.selectedPort := Some lp |}
        /\ uploadable this (boardsConfig this) = false
        /\ In board (availableBoards this)
        /\ Board.state board <> Some State.incomplete
        /\ Board.port board = Some p
        /\ Board.name board = Board.name lb
        /\ Board.fqbn board = Board.fqbn lb
        /\ Port.protocol p = Port.protocol lp
        /\ this' = set_boardsConfig
                     {| Config.selectedBoard := Some lb; Config.selectedPort := Some p |} this
        /\ (uploadable this latest = true ->
            uploadable this' (boardsConfig this') = true
            /\ latestValidBoardsConfig this' = Some (boardsConfig this'))).
Proof. exact (tryReconnect_result this this' adopted). Qed.

(** ** What a pass keeps and what it shows *)

Lemma unsetMissingPort_cases (this : t) :
  (portMissing this = true
   /\ unsetMissingPort this
      = fire (BoardsConfigChanged
                {| Config.selectedBoard := Config.selectedBoard (boardsConfig this);
                   Config.selectedPort := None |})
             (setBoardsConfig
                {| Config.selectedBoard := Config.selectedBoard (boardsConfig this);
                   Config.selectedPort := None |} this))
  \/ (portMissing this = false /\ unsetMissingPort this = this).
Proof.
  unfold unsetMissingPort, portMissing.
  destruct (_ && _); [left | right]; split; reflexivity.
Qed.

Lemma portMissing_false (this : t) :
  portMissing this = false ->
  forall p, Config.selectedPort (boardsConfig this) = Some p -> In p (_availablePorts this).
Proof.
  unfold portMissing. intros H p Hp. rewrite Hp in H. simpl in H.
  apply negb_false_iff, existsb_exists in H. destruct H as (q & Hq & Hsame).
  apply sameAs_eq in Hsame. subst. exact Hq.
Qed.

Lemma portMissing_true (this : t) :
  portMissing this = true ->
  exists p, Config.selectedPort (boardsConfig this) = Some p /\ ~ In p (_availablePorts this).
Proof.
  unfold portMissing. intros H. apply andb_true_iff in H. destruct H as [Hs Hn].
  destruct (Config.selectedPort (boardsConfig this)) as [p|]; [|discriminate].
  exists p. split; [reflexivity|]. intros Hin.
  apply negb_true_iff in Hn.
  assert (existsb (fun port => Port.sameAs (Some port) (Some p)) (_availablePorts this) = true);
    [|congruence].
  apply existsb_exists. exists p. split; [exact Hin|].
  simpl. rewrite !String.eqb_refl. reflexivity.
Qed.

Lemma unsetMissingPort_settled (this : t) : portMissing (unsetMissingPort this) = false.
Proof.
  destruct (unsetMissingPort_cases this) as [[_ ->] | [H ->]]; [reflexivity | exact H].
Qed.

Lemma reconcile_cases (naturalCompare : option string -> option string -> Z) (this : t) :
  (hasChanged naturalCompare (reconciled naturalCompare this) (_availableBoards this) = true
   /\ reconcileAvailableBoards naturalCompare this
      = fire (AvailableBoardsChanged (reconciled naturalCompare this))
             (with_availableBoards (reconciled naturalCompare this) (unsetMissingPort this)))
  \/ (hasChanged naturalCompare (reconciled naturalCompare this) (_availableBoards this) = false
      /\ reconcileAvailableBoards naturalCompare this = unsetMissingPort this).
Proof.
  unfold reconcileAvailableBoards.
  destruct (unsetMissingPort_fields this) as (_ & _ & _ & ->).
  destruct (hasChanged _ _ _); [left | right]; split; reflexivity.
Qed.

Lemma uploadable_no_port (this : t) (board : option Board.t) :
  uploadable this {| Config.selectedBoard := board; Config.selectedPort := None |} = false.
Proof. destruct board; reflexivity. Qed.

Lemma reconcile_frame (naturalCompare : option string -> option string -> Z) (this : t) :
  let this' := reconcileAvailableBoards naturalCompare this in
  latestValidBoardsConfig this' = latestValidBoardsConfig this
  /\ Config.selectedBoard (boardsConfig this') = Config.selectedBoard (boardsConfig this)
  /\ _attachedBoards this' = _attachedBoards this
  /\ _availablePorts this' = _availablePorts this
  /\ storedBoards this' = storedBoards this
  /\ storedConfigs this' = storedConfigs this
  /\ (forall p,
         Config.selectedPort (boardsConfig this) = Some p ->
         In p (_availablePorts this) ->
         boardsConfig this' = boardsConfig this
         /\ latestBoardsConfig this' = latestBoardsConfig this)
  /\ (forall p,
         Config.selectedPort (boardsConfig this) = Some p ->
         ~ In p (_availablePorts this) ->
         Config.selectedPort (boardsConfig this') = None
         /\ latestBoardsConfig this' = Some (boardsConfig this'))
  /\ (forall p,
         Config.selectedPort (boardsConfig this') = Some p ->
         In p (_availablePorts this)).
Proof.
  intros this'.
  assert (Hframe : latestValidBoardsConfig this' = latestValidBoardsConfig (unsetMissingPort this)
                   /\ latestBoardsConfig this' = latestBoardsConfig (unsetMissingPort this)
                   /\ boardsConfig this' = boardsConfig (unsetMissingPort this)
                   /\ _attachedBoards this' = _attachedBoards (unsetMissingPort this)
                   /\ _availablePorts this' = _availablePorts (unsetMissingPort this)
                   /\ storedBoards this' = storedBoards (unsetMissingPort this)
                   /\ storedConfigs this' = storedConfigs (unsetMissingPort this)).
  { subst this'. destruct (reconcile_cases naturalCompare this) as [[_ ->] | [_ ->]];
      repeat split. }
  destruct Hframe as (-> & -> & -> & -> & -> & -> & ->).
  destruct (unsetMissingPort_cases this) as [[Hm ->] | [Hm ->]].
  - apply portMissing_true in Hm. destruct Hm as (q & Hq & Hnot).
    unfold latestValidBoardsConfig, latestBoardsConfig, boardsConfig in *. simpl.
    rewrite uploadable_no_port.
    repeat split; intros; try congruence; try discriminate.
  - repeat split; intros; try (apply (portMissing_false this Hm); assumption);
      exfalso; eauto using portMissing_false.
Qed.

(** X7. A pass leaves the remembered valid configuration, the selected
    board, the attached boards, the ports and the store alone. It keeps the
    configuration when the selected port is available and unsets the port when
    it is not; after the pass a selected port is an available port. *)
Theorem reconcile_keeps (naturalCompare : option string -> option string -> Z) (this : t) :
  let this' := reconcileAvailableBoards naturalCompare this in
  latestValidBoardsConfig this' = latestValidBoardsConfig this
  /\ Config.selectedBoard (boardsConfig this') = Config.selectedBoard (boardsConfig this)
  /\ _attachedBoards this' = _attachedBoards this
  /\ _availablePorts this' = _availablePorts this
  /\ storedBoards this' = storedBoards this
  /\ storedConfigs this' = storedConfigs this
  /\ (forall p,
         Config.selectedPort (boardsConfig this) = Some p ->
         In p (_availablePorts this) ->
         boardsConfig this' = boardsConfig this
         /\ latestBoardsConfig this' = latestBoardsConfig this)
  /\ (forall p,
         Config.selectedPort (boardsConfig this) = Some p ->
         ~ In p (_availablePorts this) ->
         Config.selectedPort (boardsConfig this') = None
         /\ latestBoardsConfig this' = Some (boardsConfig this'))
  /\ (forall p,
         Config.selectedPort (boardsConfig this') = Some p ->
         In p (_availablePorts this)).
Proof. exact (reconcile_frame naturalCompare this). Qed.


Lemma compare_refl (naturalCompare : option string -> option string -> Z) (board : Board.t) :
  (forall a, naturalCompare a a = 0) ->
  AvailableBoard.compare naturalCompare board board = 0.
Proof.
  intros Hrefl. unfold AvailableBoard.compare.
  destruct (strictEq (AvailableBoard.protocolOf board) (Some "serial")),
           (strictEq (AvailableBoard.protocolOf board) (Some "network")); simpl;
    unfold State.lt; destruct (Board.state board) as [s|];
    rewrite ?Z.ltb_irrefl, ?andb_false_r; simpl; apply Hrefl.
Qed.

Lemma hasChanged_refl (naturalCompare : option string -> option string -> Z)
    (l : list Board.t) :
  (forall a, naturalCompare a a = 0) -> hasChanged naturalCompare l l = false.
Proof.
  intros Hrefl. unfold hasChanged. rewrite Nat.eqb_refl. simpl.
  induction l as [|x l IH]; simpl; [reflexivity|].
  rewrite (compare_refl naturalCompare x Hrefl), IH.
  assert (Hf : strictEq (Board.fqbn x) (Board.fqbn x) = true) by (apply strictEq_eq; reflexivity).
  assert (Hs : strictEqFlag (Board.selected x) (Board.selected x) = true)
    by (destruct (Board.selected x) as [[|]|]; reflexivity).
  rewrite Hf, Hs. reflexivity.
Qed.

Lemma unsetMissingPort_fixed (this : t) :
  portMissing this = false -> unsetMissingPort this = this.
Proof.
  intros H. destruct (unsetMissingPort_cases this) as [[H' _] | [_ ->]];
    [congruence | reflexivity].
Qed.

(** X8. With a natural comparison that finds every address equal to
    itself, a second pass right after a pass changes nothing and fires
    nothing. *)
Theorem reconcile_idempotent (naturalCompare : option string -> option string -> Z)
    (this : t) :
  (forall a, naturalCompare a a = 0) ->
  reconcileAvailableBoards naturalCompare (reconcileAvailableBoards naturalCompare this)
  = reconcileAvailableBoards naturalCompare this.
Proof.
  intros Hrefl.
  pose proof (unsetMissingPort_settled this) as Hsettled.
  destruct (reconcile_cases naturalCompare this) as [[Hch Heq] | [Hch Heq]].
  - rewrite Heq.
    set (this1 := fire _ (with_availableBoards _ _)).
    assert (H1 : unsetMissingPort this1 = this1) by (apply unsetMissingPort_fixed, Hsettled).
    assert (H2 : reconciled naturalCompare this1 = reconciled naturalCompare this).
    { unfold reconciled. rewrite H1. reflexivity. }
    unfold reconcileAvailableBoards. rewrite H1, H2.
    change (_availableBoards this1) with (reconciled naturalCompare this).
    rewrite (hasChanged_refl naturalCompare _ Hrefl). reflexivity.
  - rewrite Heq.
    assert (H1 : unsetMissingPort (unsetMissingPort this) = unsetMissingPort this)
      by (apply unsetMissingPort_fixed, Hsettled).
    unfold reconcileAvailableBoards, reconciled. rewrite H1.
    fold (reconciled naturalCompare this).
    destruct (unsetMissingPort_fields this) as (_ & _ & _ & ->).
    rewrite Hch. reflexivity.
Qed.

Lemma removeFirst_keeps {A : Type} (p : A -> bool) (l : list A) (x : A) :
  In x l -> In x (removeFirst p l) \/ p x = true.
Proof.
  induction l as [|y l IH]; simpl; [tauto|].
  intros [<- | Hx].
  - destruct (p y) eqn:Hy; [right; reflexivity | left; left; reflexivity].
  - destruct (p y); [left; exact Hx|].
    destruct (IH Hx); [left; right; assumption | right; assumption].
Qed.

Lemma removeFirst_length {A : Type} (p : A -> bool) (l : list A) :
  (length (removeFirst p l) <= length l)%nat.
Proof.
  induction l as [|y l IH]; simpl; [lia|]. destruct (p y); simpl; lia.
Qed.

Lemma collect_In (this : t) (entry : Board.t) :
  In entry (collectAvailableBoards this) ->
  (exists port, In port (availableBoardPorts this)
                /\ entry = availableBoardOn this (boardsConfig this) port)
  \/ (exists selectedBoard,
         Config.selectedBoard (boardsConfig this) = Some selectedBoard
         /\ entry = selectedEntry selectedBoard (boardsConfig this)).
Proof.
  unfold collectAvailableBoards. rewrite injectSelected_removeFirst.
  assert (Hmap : forall x, In x (map (availableBoardOn this (boardsConfig this))
                                    (availableBoardPorts this)) ->
                 exists port, In port (availableBoardPorts this)
                              /\ x = availableBoardOn this (boardsConfig this) port).
  { intros x Hx. apply in_map_iff in Hx. destruct Hx as (port & <- & Hin). eauto. }
  destruct (Config.selectedBoard (boardsConfig this)) as [sb|]; [|left; auto].
  destruct (negb (existsb _ _)); [|left; auto].
  intros Hin. apply in_app_or in Hin. destruct Hin as [Hin | [<- | []]].
  - left. apply Hmap. eapply removeFirst_In, Hin.
  - right. eauto.
Qed.

Lemma reconciled_In (naturalCompare : option string -> option string -> Z) (this : t)
    (entry : Board.t) :
  In entry (reconciled naturalCompare this)
  <-> In entry (collectAvailableBoards (unsetMissingPort this)).
Proof.
  unfold reconciled. split; apply Permutation_in.
  - apply sort_Permutation.
  - apply Permutation_sym, sort_Permutation.
Qed.

Lemma attachedWithPort_unset (this : t) :
  attachedWithPort (unsetMissingPort this) = attachedWithPort this.
Proof.
  unfold attachedWithPort. destruct (unsetMissingPort_fields this) as (_ & -> & _).
  reflexivity.
Qed.

Lemma availableBoardPorts_unset (this : t) :
  availableBoardPorts (unsetMissingPort this) = availableBoardPorts this.
Proof.
  unfold availableBoardPorts. rewrite attachedWithPort_unset.
  destruct (unsetMissingPort_fields this) as (-> & _). reflexivity.
Qed.

Lemma reconciled_wellformed (naturalCompare : option string -> option string -> Z)
    (this : t) :
  (forall entry,
      In entry (reconciled naturalCompare this) ->
      is_Some (Board.state entry)
      /\ (forall p, Board.port entry = Some p -> In p (_availablePorts this))
      /\ (Board.port entry = None ->
          Board.state entry = Some State.incomplete
          /\ Board.selected entry = Some true
          /\ Config.selectedPort (boardsConfig (unsetMissingPort this)) = None))
  /\ (length (reconciled naturalCompare this) <= length (_availablePorts this) + 1)%nat.
Proof.
  split.
  - intros entry Hin. apply reconciled_In, collect_In in Hin.
    destruct Hin as [(port & Hport & ->) | (sb & Hsb & ->)].
    + split; [apply availableBoardOn_state|].
      rewrite availableBoardOn_port. split; [|discriminate].
      intros p [= <-]. rewrite availableBoardPorts_unset in Hport.
      apply availableBoardPorts_In, Hport.
    + split; [eexists; reflexivity|]. simpl. split.
      * intros p Hp. rewrite <- (proj1 (unsetMissingPort_fields this)).
        exact (portMissing_false _ (unsetMissingPort_settled this) p Hp).
      * auto.
  - unfold reconciled.
    rewrite (Permutation_length (sort_Permutation _ _)).
    unfold collectAvailableBoards. rewrite injectSelected_removeFirst.
    assert (Hlen : (length (map (availableBoardOn (unsetMissingPort this)
                                   (boardsConfig (unsetMissingPort this)))
                                (availableBoardPorts (unsetMissingPort this)))
                    <= length (_availablePorts this))%nat).
    { rewrite List.length_map, availableBoardPorts_unset.
      unfold availableBoardPorts. apply List.filter_length_le. }
    destruct (Config.selectedBoard _); [|lia].
    destruct (negb (existsb _ _)); [|lia].
    rewrite List.length_app. simpl.
    pose proof (removeFirst_length
                  (fun board =>
                     strictEq (Port.address_opt (Board.port board))
                       (Port.address_opt
                          (Config.selectedPort (boardsConfig (unsetMissingPort this)))))
                  (map (availableBoardOn (unsetMissingPort this)
                          (boardsConfig (unsetMissingPort this)))
                       (availableBoardPorts (unsetMissingPort this)))).
    lia.
Qed.

(** X9. Every entry of the computed list has a state, and its port, if
    it has one, is an available port; only the selected, incomplete entry can
    be without port, when no port is selected. The list has at most one entry
    more than there are ports. *)
Theorem reconciled_entries (naturalCompare : option string -> option string -> Z)
    (this : t) :
  (forall entry,
      In entry (reconciled naturalCompare this) ->
      is_Some (Board.state entry)
      /\ (forall p, Board.port entry = Some p -> In p (_availablePorts this))
      /\ (Board.port entry = None ->
          Board.state entry = Some State.incomplete
          /\ Board.selected entry = Some true
          /\ Config.selectedPort (boardsConfig (unsetMissingPort this)) = None))
  /\ (length (reconciled naturalCompare this) <= length (_availablePorts this) + 1)%nat.
Proof. exact (reconciled_wellformed naturalCompare this). Qed.

Lemma sameAs_refl (p : Port.t) : Port.sameAs (Some p) (Some p) = true.
Proof. simpl. rewrite !String.eqb_refl. reflexivity. Qed.

Lemma attachedWithPort_In (this : t) (board : Board.t) :
  In board (attachedWithPort this)
  <-> In board (_attachedBoards this) /\ is_Some (Board.port board).
Proof.
  unfold attachedWithPort. rewrite filter_In.
  split; intros [H1 H2]; split; auto.
  - apply bool_decide_eq_true in H2. exact H2.
  - apply bool_decide_eq_true. exact H2.
Qed.

Lemma collect_shows (this : t) (port : Port.t) :
  In port (availableBoardPorts this) ->
  exists entry, In entry (collectAvailableBoards this)
                /\ AvailableBoard.addressOf entry = Some (Port.address port).
Proof.
  intros Hport.
  set (e := availableBoardOn this (boardsConfig this) port).
  assert (He : AvailableBoard.addressOf e = Some (Port.address port)).
  { unfold AvailableBoard.addressOf, e. rewrite availableBoardOn_port. reflexivity. }
  assert (Hin : In e (map (availableBoardOn this (boardsConfig this))
                          (availableBoardPorts this))) by (apply in_map, Hport).
  unfold collectAvailableBoards. rewrite injectSelected_removeFirst.
  destruct (Config.selectedBoard (boardsConfig this)) as [sb|]; [|eauto].
  destruct (negb (existsb _ _)); [|eauto].
  destruct (removeFirst_keeps
              (fun board => strictEq (Port.address_opt (Board.port board))
                              (Port.address_opt (Config.selectedPort (boardsConfig this))))
              _ e Hin) as [Hkept | Hsame].
  - exists e. split; [apply in_or_app; left; exact Hkept | exact He].
  - exists (selectedEntry sb (boardsConfig this)). split.
    + apply in_or_app. right. left. reflexivity.
    + apply strictEq_eq in Hsame. unfold AvailableBoard.addressOf in *. simpl.
      rewrite <- Hsame. exact He.
Qed.

(** X10. Every serial port and every port that shares its address with
    an attached board has an entry on its address. An entry on a port that is
    not serial stands for an attached board on that address, or is the selected
    board on the selected port. *)
Theorem reconciled_shows_ports (naturalCompare : option string -> option string -> Z)
    (this : t) :
  (forall port,
      In port (_availablePorts this) ->
      Port.protocol port = "serial" ->
      exists entry, In entry (reconciled naturalCompare this)
                    /\ AvailableBoard.addressOf entry = Some (Port.address port))
  /\ (forall port board q,
         In port (_availablePorts this) ->
         In board (_attachedBoards this) ->
         Board.port board = Some q ->
         Port.address q = Port.address port ->
         exists entry, In entry (reconciled naturalCompare this)
                       /\ AvailableBoard.addressOf entry = Some (Port.address port))
  /\ (forall entry p,
         In entry (reconciled naturalCompare this) ->
         Board.port entry = Some p ->
         Port.protocol p <> "serial" ->
         (exists board q,
             In board (_attachedBoards this)
             /\ Board.port board = Some q
             /\ Port.address q = Port.address p)
         \/ (Board.state entry = Some State.incomplete
             /\ Board.selected entry = Some true
             /\ Config.selectedPort (boardsConfig (unsetMissingPort this)) = Some p)).
Proof.
  assert (Hshow : forall port, In port (availableBoardPorts this) ->
            exists entry, In entry (reconciled naturalCompare this)
                          /\ AvailableBoard.addressOf entry = Some (Port.address port)).
  { intros port Hport. rewrite <- availableBoardPorts_unset in Hport.
    destruct (collect_shows _ port Hport) as (entry & Hin & Haddr).
    exists entry. split; [apply reconciled_In, Hin | exact Haddr]. }
  split; [|split].
  - intros port Hin Hserial. apply Hshow.
    unfold availableBoardPorts. apply filter_In. split; [exact Hin|].
    rewrite Hserial. reflexivity.
  - intros port board q Hin Hboard Hq Haddr. apply Hshow.
    unfold availableBoardPorts. apply filter_In. split; [exact Hin|].
    destruct (String.eqb (Port.protocol port) "serial"); [reflexivity|].
    apply existsb_exists. exists board. split.
    + apply attachedWithPort_In. split; [exact Hboard | rewrite Hq; eexists; reflexivity].
    + rewrite Hq. simpl. rewrite Haddr. apply String.eqb_refl.
  - intros entry p Hin Hp Hproto. apply reconciled_In, collect_In in Hin.
    destruct Hin as [(port & Hport & ->) | (sb & Hsb & ->)].
    + left. rewrite availableBoardOn_port in Hp. injection Hp as ->.
      rewrite availableBoardPorts_unset in Hport.
      unfold availableBoardPorts in Hport. apply filter_In in Hport.
      destruct Hport as [_ Hkeep].
      destruct (String.eqb_spec (Port.protocol p) "serial") as [Hs | _]; [contradiction|].
      apply existsb_exists in Hkeep. destruct Hkeep as (board & Hboard & Haddr).
      apply attachedWithPort_In in Hboard. destruct Hboard as [Hboard [q Hq]].
      exists board, q. rewrite Hq in Haddr. simpl in Haddr.
      apply String.eqb_eq in Haddr. auto.
    + right. simpl in *. auto.
Qed.

(** X11. A recognized entry has the name and FQBN of an attached board on
    its port; a guessed entry those of the board remembered for its port, on
    which no board is attached; an incomplete entry is the unknown board of a
    port with neither, or the selected board. *)
Theorem reconciled_provenance (naturalCompare : option string -> option string -> Z)
    (this : t) (entry : Board.t) :
  In entry (reconciled naturalCompare this) ->
  (Board.state entry = Some State.recognized ->
   exists board,
     In board (_attachedBoards this)
     /\ Board.port board = Board.port entry
     /\ Board.name entry = Board.name board
     /\ Board.fqbn entry = Board.fqbn board
     /\ Board.selected entry
        = Some (Config.sameAs (boardsConfig (unsetMissingPort this)) board))
  /\ (Board.state entry = Some State.guessed ->
      exists port board,
        Board.port entry = Some port
        /\ getLastSelectedBoardOnPort this port = Some board
        /\ Board.name entry = Board.name board
        /\ Board.fqbn entry = Board.fqbn board
        /\ (forall attached, In attached (_attachedBoards this) ->
                             Board.port attached <> Some port))
  /\ (Board.state entry = Some State.incomplete ->
      (exists port,
          Board.port entry = Some port
          /\ Board.name entry = unknown
          /\ Board.fqbn entry = None
          /\ Board.selected entry = None
          /\ getLastSelectedBoardOnPort this port = None
          /\ (forall attached, In attached (_attachedBoards this) ->
                               Board.port attached <> Some port))
      \/ (exists selectedBoard,
             Config.selectedBoard (boardsConfig this) = Some selectedBoard
             /\ entry = selectedEntry selectedBoard (boardsConfig (unsetMissingPort this)))).
Proof.
  intros Hin. apply reconciled_In, collect_In in Hin.
  assert (Hboard : Config.selectedBoard (boardsConfig (unsetMissingPort this))
                   = Config.selectedBoard (boardsConfig this)).
  { destruct (unsetMissingPort_cases this) as [[_ ->] | [_ ->]]; reflexivity. }
  destruct Hin as [(port & Hport & ->) | (sb & Hsb & ->)].
  - unfold availableBoardOn. rewrite attachedWithPort_unset.
    assert (Hlast : getLastSelectedBoardOnPort (unsetMissingPort this) port
                    = getLastSelectedBoardOnPort this port).
    { unfold getLastSelectedBoardOnPort.
      destruct (unsetMissingPort_fields this) as (_ & _ & -> & _). reflexivity. }
    rewrite Hlast.
    destruct (List.find _ (attachedWithPort this)) as [board|] eqn:Hfind.
    + apply find_some in Hfind. destruct Hfind as [Hb Hsame].
      apply attachedWithPort_In in Hb. destruct Hb as [Hb _].
      apply sameAs_Some in Hsame. destruct Hsame as (p & q & [= <-] & Hq & <-).
      simpl. split; [|split; discriminate].
      intros _. exists board. rewrite Hq. repeat split; auto.
    + assert (Hnone : forall attached, In attached (_attachedBoards this) ->
                                       Board.port attached <> Some port).
      { intros attached Ha Hp.
        assert (Hw : In attached (attachedWithPort this)).
        { apply attachedWithPort_In. split; [exact Ha | rewrite Hp; eexists; reflexivity]. }
        pose proof (find_none _ _ Hfind attached Hw) as Hf. cbv beta in Hf.
        rewrite Hp, sameAs_refl in Hf. discriminate. }
      destruct (getLastSelectedBoardOnPort this port) as [board|] eqn:Hget; simpl.
      * split; [discriminate|]. split; [|discriminate].
        intros _. exists port, board. repeat split; auto.
      * split; [discriminate|]. split; [discriminate|].
        intros _. left. exists port. repeat split; auto.
  - simpl. split; [discriminate|]. split; [discriminate|].
    intros _. right. exists sb. rewrite <- Hboard. auto.
Qed.

(** ** Persistence *)

Lemma append_inj (prefix a b : string) : prefix +:+ a = prefix +:+ b -> a = b.
Proof.
  induction prefix as [|c prefix IH]; simpl; [auto|].
  intros [= H]. auto.
Qed.

Lemma key_eq (p q : Port.t) :
  getLastSelectedBoardOnPortKey p = getLastSelectedBoardOnPortKey q
  <-> Port.address p = Port.address q.
Proof.
  unfold getLastSelectedBoardOnPortKey. split.
  - apply append_inj.
  - intros ->. reflexivity.
Qed.

(** X12. After [saveState] with a board and a port selected, the board is
    remembered for every port with the address of the selected port, whatever
    its protocol, and the other addresses are as before; without board or port
    the remembered boards are unchanged. *)
Theorem saveState_remembers (this : t) :
  (forall board port,
      Config.selectedBoard (boardsConfig this) = Some board ->
      Config.selectedPort (boardsConfig this) = Some port ->
      (forall q, Port.address q = Port.address port ->
                 getLastSelectedBoardOnPort (saveState this) q = Some board)
      /\ (forall q, Port.address q <> Port.address port ->
                    getLastSelectedBoardOnPort (saveState this) q
                    = getLastSelectedBoardOnPort this q))
  /\ (Config.selectedBoard (boardsConfig this) = None
      \/ Config.selectedPort (boardsConfig this) = None ->
      storedBoards (saveState this) = storedBoards this).
Proof.
  unfold getLastSelectedBoardOnPort. split.
  - intros board port Hb Hp. simpl. rewrite Hb, Hp. simpl. split.
    + intros q Hq. apply key_eq in Hq. rewrite Hq. apply lookup_insert_eq.
    + intros q Hq. apply lookup_insert_ne. intros Hk. apply Hq. symmetry.
      apply key_eq. exact Hk.
  - simpl. intros [-> | H]; [reflexivity|].
    rewrite H. destruct (Config.selectedBoard (boardsConfig this)); reflexivity.
Qed.

(** X13. A fresh provider that loads what [saveState] stored restores the
    remembered valid configuration if there is one, else the latest
    configuration, else the one of the URL or the empty one. *)
Theorem saveState_loadState (urlConfig : option Config.t) (this : t) :
  let restarted :=
    loadState urlConfig
      (initial (storedBoards (saveState this)) (storedConfigs (saveState this))) in
  (forall valid,
      latestValidBoardsConfig this = Some valid ->
      uploadable this valid = true ->
      boardsConfig restarted = valid
      /\ latestValidBoardsConfig restarted = Some valid)
  /\ (forall latest,
         latestValidBoardsConfig this = None ->
         latestBoardsConfig this = Some latest ->
         boardsConfig restarted = latest)
  /\ (latestValidBoardsConfig this = None ->
      latestBoardsConfig this = None ->
      boardsConfig restarted = default Config.empty urlConfig).
Proof.
  intros restarted. subst restarted.
  unfold latestValidBoardsConfig, latestBoardsConfig, loadState.
  change (storedConfigs (initial (storedBoards (saveState this))
                                 (storedConfigs (saveState this))))
    with (storedConfigs (saveState this)).
  destruct (saveState_stored this) as [-> ->].
  split; [|split].
  - intros valid -> Hup.
    rewrite (uploadable_independent _ this), Hup. simpl.
    rewrite (uploadable_independent _ this), Hup. auto.
  - intros latest -> ->. reflexivity.
  - intros -> ->. destruct urlConfig; reflexivity.
Qed.

(** ** Packages *)

Lemma uninstalled_facts (item : BoardsPackage) (this : t) :
  let this' := notifyPlatformUninstalled item this in
  Config.selectedPort (boardsConfig this') = Config.selectedPort (boardsConfig this)
  /\ Board.name <$> Config.selectedBoard (boardsConfig this')
     = Board.name <$> Config.selectedBoard (boardsConfig this)
  /\ latestValidBoardsConfig this' = latestValidBoardsConfig this
  /\ availableBoards this' = availableBoards this
  /\ (this' = this
      \/ exists selectedBoard uninstalledBoard,
           Config.selectedBoard (boardsConfig this) = Some selectedBoard
           /\ truthy (Board.fqbn selectedBoard) = true
           /\ In uninstalledBoard (boards item)
           /\ Board.name uninstalledBoard = Board.name selectedBoard
           /\ Board.fqbn uninstalledBoard = Board.fqbn selectedBoard
           /\ Config.selectedBoard (boardsConfig this')
              = Some (Board.plain (Board.name selectedBoard) None)
           /\ fst (canVerify this' None None) = true
           /\ fst (canUploadTo this' None None) = false).
Proof.
  intros this'. subst this'. unfold notifyPlatformUninstalled.
  destruct (Config.selectedBoard (boardsConfig this)) as [sb|] eqn:Hsb;
    [|rewrite Hsb; repeat split; auto].
  destruct (truthy (Board.fqbn sb)) eqn:Hf; [|rewrite Hsb; repeat split; auto].
  destruct (List.find _ (boards item)) as [ub|] eqn:Hfind;
    [|rewrite Hsb; repeat split; auto].
  destruct (strictEq (Board.fqbn ub) (Board.fqbn sb)) eqn:Heq;
    [|rewrite Hsb; repeat split; auto].
  destruct (match (if AvailableBoard.is_ sb then Some sb else _) with
            | Some board => _ | None => false end);
    [rewrite Hsb; repeat split; auto|].
  apply find_some in Hfind. destruct Hfind as [Hin Hname].
  apply String.eqb_eq in Hname. apply strictEq_eq in Heq.
  unfold set_boardsConfig, latestValidBoardsConfig, availableBoards, boardsConfig. simpl.
  assert (Hup : uploadable this
                  {| Config.selectedBoard := Some (Board.plain (Board.name sb) None);
                     Config.selectedPort := Config.selectedPort (_boardsConfig this) |}
                = false).
  { unfold uploadable, canUploadTo, canVerify, canVerifyBody. simpl.
    destruct (Config.selectedPort (_boardsConfig this)); reflexivity. }
  rewrite Hup. repeat split.
  right. exists sb, ub. repeat split; auto.
Qed.

(** X14. An uninstall event never changes the selected port, the name of
    the selected board, the remembered valid configuration or the available
    boards. Either it changes nothing, or the package lists a board with the
    name and FQBN of the selected one and the selection is left with the name
    alone: verifiable, not uploadable. *)
Theorem notifyPlatformUninstalled_strips_only (item : BoardsPackage) (this : t) :
  let this' := notifyPlatformUninstalled item this in
  Config.selectedPort (boardsConfig this') = Config.selectedPort (boardsConfig this)
  /\ Board.name <$> Config.selectedBoard (boardsConfig this')
     = Board.name <$> Config.selectedBoard (boardsConfig this)
  /\ latestValidBoardsConfig this' = latestValidBoardsConfig this
  /\ availableBoards this' = availableBoards this
  /\ (this' = this
      \/ exists selectedBoard uninstalledBoard,
           Config.selectedBoard (boardsConfig this) = Some selectedBoard
           /\ truthy (Board.fqbn selectedBoard) = true
           /\ In uninstalledBoard (boards item)
           /\ Board.name uninstalledBoard = Board.name selectedBoard
           /\ Board.fqbn uninstalledBoard = Board.fqbn selectedBoard
           /\ Config.selectedBoard (boardsConfig this')
              = Some (Board.plain (Board.name selectedBoard) None)
           /\ fst (canVerify this' None None) = true
           /\ fst (canUploadTo this' None None) = false).
Proof. exact (uninstalled_facts item this). Qed.

Lemma installed_facts (packageIdOf : Board.t -> option string)
    (item : BoardsPackage) (itemName : string) (this : t) :
  let result := notifyPlatformInstalled packageIdOf item itemName this in
  (Config.selectedBoard (boardsConfig this) = None -> result = (this, []))
  /\ (forall selectedBoard installedBoard,
         Config.selectedBoard (boardsConfig this) = Some selectedBoard ->
         List.find (fun board => String.eqb (Board.name board) (Board.name selectedBoard))
                   (boards item) = Some installedBoard ->
         truthy (Board.fqbn selectedBoard) = false
         \/ Board.fqbn selectedBoard = Board.fqbn installedBoard ->
         boardsConfig (fst result)
         = {| Config.selectedBoard := Some installedBoard;
              Config.selectedPort := Config.selectedPort (boardsConfig this) |}
         /\ Board.name installedBoard = Board.name selectedBoard
         /\ snd result = [])
  /\ (forall selectedBoard,
         Config.selectedBoard (boardsConfig this) = Some selectedBoard ->
         boardsConfig (fst result) = Config.empty ->
         packageIdOf selectedBoard = Some (id item)
         /\ (forall board, In board (boards item) ->
                           Board.name board <> Board.name selectedBoard)
         /\ snd result
            = [couldNotFindPreviouslySelected (Board.name selectedBoard) itemName])
  /\ (snd result <> [] -> boardsConfig (fst result) = Config.empty)
  /\ (boardsConfig (fst result) <> Config.empty ->
      Config.selectedPort (boardsConfig (fst result))
      = Config.selectedPort (boardsConfig this)).
Proof.
  intros result. subst result. unfold notifyPlatformInstalled.
  destruct (Config.selectedBoard (boardsConfig this)) as [sb|] eqn:Hsb.
  2:{ split; [reflexivity|]. split; [discriminate|]. split; [discriminate|].
      split; [intros H; contradiction | reflexivity]. }
  split; [discriminate|].
  assert (Hkept : boardsConfig (set_boardsConfig (boardsConfig this) this) <> Config.empty).
  { unfold boardsConfig. simpl. intros Hempty. unfold boardsConfig in Hsb.
    rewrite Hempty in Hsb. discriminate. }
  destruct (List.find _ (boards item)) as [ib|] eqn:Hfind.
  - pose proof (find_some _ _ Hfind) as [Hin Hname]. apply String.eqb_eq in Hname.
    destruct (negb (truthy (Board.fqbn sb)) || strictEq (Board.fqbn sb) (Board.fqbn ib))
      eqn:Hfill.
    + split; [|split; [|split]].
      * intros sb' ib' Hsb' Hib' _.
        assert (sb' = sb) by congruence. subst sb'.
        assert (ib' = ib) by congruence. subst ib'. repeat split; auto.
      * intros sb' [= <-] Hempty. discriminate.
      * intros H. contradiction.
      * intros _. reflexivity.
    + rewrite andb_false_r. cbv iota.
      apply orb_false_iff in Hfill. destruct Hfill as [Ht Hne].
      apply negb_false_iff in Ht.
      split; [|split; [|split]].
      * intros sb' ib' Hsb' Hib' H.
        assert (sb' = sb) by congruence. subst sb'.
        assert (ib' = ib) by congruence. subst ib'.
        destruct H as [H | H]; [congruence|].
        apply strictEq_eq in H. congruence.
      * intros sb' [= <-] Hempty. contradiction.
      * intros H. contradiction.
      * intros _. reflexivity.
  - cbv iota.
    destruct (bool_decide (is_Some (packageIdOf sb))
              && strictEq (packageIdOf sb) (Some (id item))) eqn:Hpkg; simpl andb; cbv iota.
    + apply andb_true_iff in Hpkg. destruct Hpkg as [_ Hpkg]. apply strictEq_eq in Hpkg.
      split; [intros sb' ib' Hsb' Hib' _;
              assert (sb' = sb) by congruence; subst sb'; congruence|].
      split; [|split].
      * intros sb' [= <-] _. split; [exact Hpkg|]. split; [|reflexivity].
        intros board Hb Hn.
        pose proof (find_none _ _ Hfind board Hb) as Hf. cbv beta in Hf.
        rewrite Hn, String.eqb_refl in Hf. discriminate.
      * intros _. reflexivity.
      * intros H. exfalso. apply H. reflexivity.
    + split; [intros sb' ib' Hsb' Hib' _;
              assert (sb' = sb) by congruence; subst sb'; congruence|].
      split; [|split].
      * intros sb' [= <-] Hempty. contradiction.
      * intros H. contradiction.
      * intros _. reflexivity.
Qed.

(** X15. An install event does nothing without a selected board. When
    the package lists a board with the selected name and the selection has no
    FQBN or the same one, that board becomes the selected one, on the same
    port. The selection is cleared, with the one warning there is, only when
    the selected board carries the id of the package and the package lists no
    board of its name; in every other case the port is kept. *)
Theorem notifyPlatformInstalled_outcome (packageIdOf : Board.t -> option string)
    (item : BoardsPackage) (itemName : string) (this : t) :
  let result := notifyPlatformInstalled packageIdOf item itemName this in
  (Config.selectedBoard (boardsConfig this) = None -> result = (this, []))
  /\ (forall selectedBoard installedBoard,
         Config.selectedBoard (boardsConfig this) = Some selectedBoard ->
         List.find (fun board => String.eqb (Board.name board) (Board.name selectedBoard))
                   (boards item) = Some installedBoard ->
         truthy (Board.fqbn selectedBoard) = false
         \/ Board.fqbn selectedBoard = Board.fqbn installedBoard ->
         boardsConfig (fst result)
         = {| Config.selectedBoard := Some installedBoard;
              Config.selectedPort := Config.selectedPort (boardsConfig this) |}
         /\ Board.name installedBoard = Board.name selectedBoard
         /\ snd result = [])
  /\ (forall selectedBoard,
         Config.selectedBoard (boardsConfig this) = Some selectedBoard ->
         boardsConfig (fst result) = Config.empty ->
         packageIdOf selectedBoard = Some (id item)
         /\ (forall board, In board (boards item) ->
                           Board.name board <> Board.name selectedBoard)
         /\ snd result
            = [couldNotFindPreviouslySelected (Board.name selectedBoard) itemName])
  /\ (snd result <> [] -> boardsConfig (fst result) = Config.empty)
  /\ (boardsConfig (fst result) <> Config.empty ->
      Config.selectedPort (boardsConfig (fst result))
      = Config.selectedPort (boardsConfig this)).
Proof. exact (installed_facts packageIdOf item itemName this). Qed.

(** X16. When an uninstall event has stripped the FQBN of the selected
    board, an install event for the same package gives it back: the selected
    board is then a board of the package with the former name and FQBN, on the
    same port. *)
Theorem uninstall_then_install (packageIdOf : Board.t -> option string)
    (item : BoardsPackage) (itemName : string) (this : t) (selectedBoard : Board.t) :
  Config.selectedBoard (boardsConfig this) = Some selectedBoard ->
  truthy (Board.fqbn selectedBoard) = true ->
  Config.selectedBoard (boardsConfig (notifyPlatformUninstalled item this))
  = Some (Board.plain (Board.name selectedBoard) None) ->
  exists installedBoard,
    In installedBoard (boards item)
    /\ boardsConfig
         (fst (notifyPlatformInstalled packageIdOf item itemName
                 (notifyPlatformUninstalled item this)))
       = {| Config.selectedBoard := Some installedBoard;
            Config.selectedPort := Config.selectedPort (boardsConfig this) |}
    /\ Board.name installedBoard = Board.name selectedBoard
    /\ Board.fqbn installedBoard = Board.fqbn selectedBoard.
Proof.
  intros Hsb Hf Hstripped.
  destruct (uninstalled_facts item this)
    as (Hport & _ & _ & _ & [Hsame | Hstrip]).
  - rewrite Hsame, Hsb in Hstripped. injection Hstripped as Hplain.
    rewrite Hplain in Hf. discriminate.
  - destruct Hstrip as (sb & ub & Hsb' & _ & Hin & Hname & Hfq & _).
    assert (sb = selectedBoard) by congruence. subst sb.
    assert (Hfind : exists ib,
               List.find (fun board => String.eqb (Board.name board)
                                         (Board.name selectedBoard)) (boards item) = Some ib).
    { destruct (List.find _ (boards item)) as [ib|] eqn:Hfind; [eauto|].
      pose proof (find_none _ _ Hfind ub Hin) as Hn. cbv beta in Hn.
      rewrite Hname, String.eqb_refl in Hn. discriminate. }
    destruct Hfind as (ib & Hfind).
    assert (Hib : In ib (boards item) /\ Board.name ib = Board.name selectedBoard).
    { apply find_some in Hfind. destruct Hfind as [H1 H2].
      apply String.eqb_eq in H2. auto. }
    assert (Hibf : Board.fqbn ib = Board.fqbn selectedBoard).
    { (* the uninstall compared the FQBN of this very board *)
      revert Hstripped. unfold notifyPlatformUninstalled. rewrite Hsb, Hf, Hfind.
      destruct (strictEq (Board.fqbn ib) (Board.fqbn selectedBoard)) eqn:Heq.
      - intros _. apply strictEq_eq, Heq.
      - rewrite Hsb. intros [= Hplain]. rewrite Hplain in Hf. discriminate. }
    exists ib. split; [apply Hib|].
    destruct (installed_facts packageIdOf item itemName
                (notifyPlatformUninstalled item this)) as (_ & Hfill & _).
    destruct (Hfill (Board.plain (Board.name selectedBoard) None) ib Hstripped Hfind
                (or_introl eq_refl)) as (Hcfg & _ & _).
    rewrite Hcfg, Hport. repeat split; [apply Hib | exact Hibf].
Qed.

(** ** More on waiting *)

Lemma step_disposed (w : Waiting) (e : Event) :
  disposed w ->
  disposed (step w e) /\ listenerRuns (step w e) = listenerRuns w.
Proof.
  intros [Hl Hw]. destruct e as [l|]; simpl.
  - rewrite Hl. unfold disposed. auto.
  - destruct (timer w); unfold disposed; simpl; auto.
Qed.

Lemma run_disposed (events : list Event) :
  forall w, disposed w ->
            disposed (run w events) /\ listenerRuns (run w events) = listenerRuns w.
Proof.
  induction events as [|e events IH]; intros w H; [auto|].
  destruct (step_disposed w e H) as [H' Hruns].
  destruct (IH (step w e) H') as [H'' Hruns'].
  unfold run in *. simpl. split; [exact H'' | congruence].
Qed.

(** X17. Once the promise returned by [waitUntilAvailable] is settled, no
    later event changes its outcome. *)
Theorem waitUntilAvailable_settles_once (this : t) (board : Board.t) (timeout : option Z)
    (events more : list Event) :
  returned (run (waitUntilAvailable this board timeout) events) <> Pending ->
  returned (run (waitUntilAvailable this board timeout) (events ++ more))
  = returned (run (waitUntilAvailable this board timeout) events).
Proof. intros H. rewrite run_app. apply run_settled, H. Qed.

(** X18. When the awaited board is there at the call, no listener is ever
    registered. When it comes later, with the call still waiting, the listener
    is disposed by that event and does not run again. *)
Theorem waitUntilAvailable_disposes_on_match (this : t) (board : Board.t)
    (timeout : option Z) :
  (is_Some (findCandidate board (availableBoards this)) ->
   forall events,
     listening (run (waitUntilAvailable this board timeout) events) = false
     /\ listenerRuns (run (waitUntilAvailable this board timeout) events) = 0%nat)
  /\ (findCandidate board (availableBoards this) = None ->
      forall (before : list Event) (availableBoards : list Board.t) (rest : list Event),
        Forall (leavesWaiting (waitUntilAvailable this board timeout)) before ->
        is_Some (findCandidate board availableBoards) ->
        listening (run (waitUntilAvailable this board timeout)
                       (before ++ Fires availableBoards :: rest)) = false
        /\ listenerRuns (run (waitUntilAvailable this board timeout)
                             (before ++ Fires availableBoards :: rest))
           = listenerRuns (run (waitUntilAvailable this board timeout)
                               (before ++ [Fires availableBoards]))).
Proof.
  split.
  - intros [c Hc] events.
    assert (Hd : disposed (waitUntilAvailable this board timeout)).
    { unfold waitUntilAvailable. rewrite Hc. split; reflexivity. }
    destruct (run_disposed events _ Hd) as [[Hl _] Hruns].
    split; [exact Hl|]. rewrite Hruns. unfold waitUntilAvailable. rewrite Hc. reflexivity.
  - intros Hnone before l rest Hbefore [c Hc].
    destruct (waitUntilAvailable_waiting this board timeout Hnone) as (Hw & Hwhat).
    destruct (run_leavesWaiting before _ Hw Hbefore) as ((H1 & H2 & H3 & H4) & Hwhat' & _).
    change (Fires l :: rest) with ([Fires l] ++ rest).
    rewrite List.app_assoc, run_app.
    assert (Hd : disposed (run (waitUntilAvailable this board timeout)
                               (before ++ [Fires l]))).
    { rewrite run_app. unfold run at 1. simpl.
      rewrite H4, Hwhat', Hwhat, Hc. split; reflexivity. }
    destruct (run_disposed rest _ Hd) as [[Hl _] Hruns]. auto.
Qed.

(** ** More on the order *)

(** X19. With a natural comparison that changes sign when its arguments
    are swapped, [AvailableBoard.compare] changes sign when its arguments are
    swapped. *)
Theorem compare_antisymmetric (naturalCompare : option string -> option string -> Z)
    (left right : Board.t) :
  (forall a b, naturalCompare b a = - naturalCompare a b) ->
  AvailableBoard.compare naturalCompare right left
  = - AvailableBoard.compare naturalCompare left right.
Proof.
  intros Hanti. unfold AvailableBoard.compare.
  assert (Hsym : strictEq (AvailableBoard.protocolOf right) (AvailableBoard.protocolOf left)
                 = strictEq (AvailableBoard.protocolOf left) (AvailableBoard.protocolOf right)).
  { destruct (AvailableBoard.protocolOf left), (AvailableBoard.protocolOf right); simpl;
      try reflexivity. apply String.eqb_sym. }
  rewrite Hsym.
  assert (Hlt : State.lt (Board.state left) (Board.state right) = true ->
                State.lt (Board.state right) (Board.state left) = false).
  { unfold State.lt. destruct (Board.state left), (Board.state right); try discriminate.
    intros H. apply Z.ltb_lt in H. apply Z.ltb_ge. lia. }
  destruct (strictEq (AvailableBoard.protocolOf left) (Some "serial")),
           (strictEq (AvailableBoard.protocolOf right) (Some "serial")),
           (strictEq (AvailableBoard.protocolOf left) (Some "network")),
           (strictEq (AvailableBoard.protocolOf right) (Some "network")),
           (strictEq (AvailableBoard.protocolOf left) (AvailableBoard.protocolOf right));
    simpl; try reflexivity; try apply Hanti;
    destruct (State.lt (Board.state left) (Board.state right)) eqn:H1;
    destruct (State.lt (Board.state right) (Board.state left)) eqn:H2;
    simpl; try reflexivity; try apply Hanti;
    specialize (Hlt eq_refl); discriminate.
Qed.

Lemma specified_total (naturalCompare : option string -> option string -> Z)
    (a b : Board.t) :
  is_Some (Board.state a) -> is_Some (Board.state b) ->
  (naturalCompare (AvailableBoard.addressOf a) (AvailableBoard.addressOf b) <= 0
   \/ naturalCompare (AvailableBoard.addressOf b) (AvailableBoard.addressOf a) <= 0) ->
  compareAsSpecified naturalCompare a b <= 0 \/ compareAsSpecified naturalCompare b a <= 0.
Proof.
  intros [sa Ha] [sb Hb]. unfold compareAsSpecified, State.lt. rewrite Ha, Hb.
  generalize (protocolClass a) (protocolClass b) (State.toZ sa) (State.toZ sb).
  intros ca cb ta tb Hnat.
  destruct (Z.ltb_spec ca cb); [left; lia|].
  destruct (Z.ltb_spec cb ca); [right; lia|].
  destruct (Z.ltb_spec ta tb); [left; lia|].
  destruct (Z.ltb_spec tb ta); [right; lia|].
  exact Hnat.
Qed.

Lemma specified_trans (naturalCompare : option string -> option string -> Z)
    (a b c : Board.t) :
  is_Some (Board.state a) -> is_Some (Board.state b) -> is_Some (Board.state c) ->
  (naturalCompare (AvailableBoard.addressOf a) (AvailableBoard.addressOf b) <= 0 ->
   naturalCompare (AvailableBoard.addressOf b) (AvailableBoard.addressOf c) <= 0 ->
   naturalCompare (AvailableBoard.addressOf a) (AvailableBoard.addressOf c) <= 0) ->
  compareAsSpecified naturalCompare a b <= 0 ->
  compareAsSpecified naturalCompare b c <= 0 ->
  compareAsSpecified naturalCompare a c <= 0.
Proof.
  intros [sa Ha] [sb Hb] [sc Hc]. unfold compareAsSpecified, State.lt. rewrite Ha, Hb, Hc.
  generalize (naturalCompare (AvailableBoard.addressOf a) (AvailableBoard.addressOf b))
             (naturalCompare (AvailableBoard.addressOf b) (AvailableBoard.addressOf c))
             (naturalCompare (AvailableBoard.addressOf a) (AvailableBoard.addressOf c)).
  generalize (protocolClass a) (protocolClass b) (protocolClass c)
             (State.toZ sa) (State.toZ sb) (State.toZ sc).
  intros ca cb cc ta tb tc nab nbc nac Htrans.
  destruct (Z.ltb_spec ca cb), (Z.ltb_spec cb ca), (Z.ltb_spec cb cc), (Z.ltb_spec cc cb),
           (Z.ltb_spec ca cc), (Z.ltb_spec cc ca); try lia;
    destruct (Z.ltb_spec ta tb), (Z.ltb_spec tb ta), (Z.ltb_spec tb tc), (Z.ltb_spec tc tb),
             (Z.ltb_spec ta tc), (Z.ltb_spec tc ta); try lia; auto.
Qed.

Lemma StronglySorted_In_impl {A : Type} (R R' : A -> A -> Prop) (l : list A) :
  (forall a b, In a l -> In b l -> R a b -> R' a b) ->
  StronglySorted R l -> StronglySorted R' l.
Proof.
  induction l as [|x l IH]; intros Himpl Hs; [constructor|].
  inversion Hs as [|x' l' Hs' Hx]; subst. constructor.
  - apply IH; [|exact Hs']. intros a b Ha Hb. apply Himpl; right; assumption.
  - rewrite List.Forall_forall in Hx |- *. intros y Hy.
    apply Himpl; [left; reflexivity | right; exact Hy | apply Hx, Hy].
Qed.

(** X20. When the natural comparison orders the addresses of the entries
    consistently and the entries that are neither serial nor network share one
    protocol, the computed list is sorted by protocol class, then state, then
    address. *)
Theorem reconciled_sorted_as_specified
    (naturalCompare : option string -> option string -> Z) (this : t) :
  consistentOn naturalCompare
    (map AvailableBoard.addressOf (reconciled naturalCompare this)) ->
  (forall a b,
      In a (reconciled naturalCompare this) -> In b (reconciled naturalCompare this) ->
      protocolClass a = 2 -> protocolClass b = 2 ->
      AvailableBoard.protocolOf a = AvailableBoard.protocolOf b) ->
  sortedBy (compareAsSpecified naturalCompare) (reconciled naturalCompare this)
  /\ sortedBy (AvailableBoard.compare naturalCompare) (reconciled naturalCompare this).
Proof.
  intros [Htotal Htrans] Hone.
  assert (Haddr : forall a, In a (reconciled naturalCompare this) ->
                            In (AvailableBoard.addressOf a)
                               (map AvailableBoard.addressOf (reconciled naturalCompare this))).
  { intros a Ha. apply in_map, Ha. }
  assert (Hstate : forall a, In a (reconciled naturalCompare this) -> is_Some (Board.state a)).
  { intros a Ha. apply (proj1 (reconciled_wellformed naturalCompare this) a Ha). }
  assert (Hagree : forall a b,
             In a (reconciled naturalCompare this) -> In b (reconciled naturalCompare this) ->
             AvailableBoard.compare naturalCompare a b
             = compareAsSpecified naturalCompare a b).
  { intros a b Ha Hb. apply compare_agrees.
    destruct (Z.eq_dec (protocolClass a) 2) as [Hca | Hca]; [|auto].
    destruct (Z.eq_dec (protocolClass b) 2) as [Hcb | Hcb]; [|auto].
    left. apply strictEq_eq. apply Hone; assumption. }
  assert (Hsorted : sortedBy (AvailableBoard.compare naturalCompare)
                             (reconciled naturalCompare this)).
  { unfold reconciled. apply sort_sorted. split.
    - intros a b Ha Hb.
      apply (proj2 (reconciled_In naturalCompare this _)) in Ha, Hb.
      rewrite !Hagree by assumption. apply specified_total; auto.
    - intros a b c Ha Hb Hc.
      apply (proj2 (reconciled_In naturalCompare this _)) in Ha, Hb, Hc.
      rewrite !Hagree by assumption. apply specified_trans; auto.
      apply Htrans; auto. }
  split; [|exact Hsorted].
  unfold sortedBy in *. eapply StronglySorted_In_impl; [|exact Hsorted].
  intros a b Ha Hb. simpl. rewrite Hagree by assumption. auto.
Qed.

(** ** Startup *)



(** ** Opening a sketch *)

(** X22. [selectSketch] changes the disk only when a picked file is a
    sketch file outside a sketch folder, the question is answered with 1 and
    the folder to create does not exist: it then creates that folder, moves the
    file into it, and does nothing else to the disk. After the error box
    nothing is changed and nothing is returned; a file in a sketch folder is
    returned without a question. *)
Theorem selectSketch_disk (s : OpenSketch.Services) :
  (List.filter changesDisk (snd (OpenSketch.selectSketch s)) <> [] ->
   exists file others,
     OpenSketch.filePaths s = file :: others
     /\ OpenSketch.getSketchFolder s (OpenSketch.getUri s file) = None
     /\ OpenSketch.isSketchFile s (OpenSketch.getUri s file) = true
     /\ OpenSketch.response s = 1
     /\ let folder :=
          OpenSketch.parentResolve s (OpenSketch.getUri s file)
            (OpenSketch.pathName s (OpenSketch.getUri s file)) in
        OpenSketch.fileExists s folder = false
        /\ List.filter changesDisk (snd (OpenSketch.selectSketch s))
           = [OpenSketch.CreateFolder folder;
              OpenSketch.Move (OpenSketch.getUri s file)
                (OpenSketch.resolve s folder
                   (OpenSketch.getName s (OpenSketch.getUri s file)))]
        /\ fst (OpenSketch.selectSketch s) = OpenSketch.getSketchFolderMoved s folder)
  /\ (forall name,
         In (OpenSketch.ErrorBox name) (snd (OpenSketch.selectSketch s)) ->
         List.filter changesDisk (snd (OpenSketch.selectSketch s)) = []
         /\ fst (OpenSketch.selectSketch s) = None)
  /\ (OpenSketch.filePaths s = [] ->
      OpenSketch.selectSketch s
      = (None, [OpenSketch.ShowOpenDialog (OpenSketch.defaultPath s)]))
  /\ (forall file others sketch,
         OpenSketch.filePaths s = file :: others ->
         OpenSketch.getSketchFolder s (OpenSketch.getUri s file) = Some sketch ->
         fst (OpenSketch.selectSketch s) = Some sketch
         /\ List.filter changesDisk (snd (OpenSketch.selectSketch s)) = []
         /\ List.filter asksUser (snd (OpenSketch.selectSketch s))
            = [OpenSketch.ShowOpenDialog (OpenSketch.defaultPath s)]).
Proof.
  unfold OpenSketch.selectSketch.
  destruct (OpenSketch.filePaths s) as [|file others] eqn:Hpaths.
  { simpl. split; [|split; [|split]].
    - intros H. contradiction.
    - intros name [H | []]. discriminate.
    - reflexivity.
    - discriminate. }
  set (warned := if 1 <? Z.of_nat (length (file :: others))
                 then [OpenSketch.LoggerWarn (file :: others)] else []).
  assert (Hw1 : List.filter changesDisk warned = [])
    by (subst warned; destruct (1 <? _); reflexivity).
  assert (Hw2 : List.filter asksUser warned = [])
    by (subst warned; destruct (1 <? _); reflexivity).
  assert (Hw3 : forall name, ~ In (OpenSketch.ErrorBox name) warned).
  { intros name. subst warned. destruct (1 <? _); simpl; [|tauto].
    intros [H | []]. discriminate. }
  destruct (OpenSketch.getSketchFolder s (OpenSketch.getUri s file)) as [sketch|] eqn:Hfolder.
  { simpl. rewrite Hw1, Hw2. split; [|split; [|split]].
    - intros H. contradiction.
    - intros name [H | H]; [discriminate | exfalso; exact (Hw3 name H)].
    - discriminate.
    - intros f o sk Hf Hsk. injection Hf as <- <-. rewrite Hfolder in Hsk.
      injection Hsk as <-. auto. }
  destruct (OpenSketch.isSketchFile s (OpenSketch.getUri s file)) eqn:Hfile.
  2:{ simpl. rewrite Hw1. split; [|split; [|split]].
      - intros H. contradiction.
      - intros name [H | H]; [discriminate | exfalso; exact (Hw3 name H)].
      - discriminate.
      - intros f o sk Hf Hsk. injection Hf as <- <-. congruence. }
  destruct (Z.eqb_spec (OpenSketch.response s) 1) as [Hresp | Hresp].
  2:{ simpl. rewrite !List.filter_app, Hw1. simpl. split; [|split; [|split]].
      - intros H. contradiction.
      - intros name [H | H]; [discriminate|].
        apply in_app_or in H. destruct H as [H | [H | []]];
          [exfalso; exact (Hw3 name H) | discriminate].
      - discriminate.
      - intros f o sk Hf Hsk. injection Hf as <- <-. congruence. }
  destruct (OpenSketch.fileExists s _) eqn:Hexists.
  - simpl. rewrite !List.filter_app, Hw1. simpl. split; [|split; [|split]].
    + intros H. contradiction.
    + intros name _. auto.
    + discriminate.
    + intros f o sk Hf Hsk. injection Hf as <- <-. congruence.
  - simpl. rewrite !List.filter_app, Hw1. simpl. split; [|split; [|split]].
    + intros _. exists file, others. repeat split; auto.
    + intros name [H | H]; [discriminate|].
      apply in_app_or in H. destruct H as [H | H].
      * apply in_app_or in H. destruct H as [H | [H | []]];
          [exfalso; exact (Hw3 name H) | discriminate].
      * destruct H as [H | [H | []]]; discriminate.
    + discriminate.
    + intros f o sk Hf Hsk. injection Hf as <- <-. congruence.
Qed.



(** ** Instances *)

Lemma compareChunk_refl (x : Utils.chunk) : Utils.compareChunk x x = Eq.
Proof. destruct x; exact (N.compare_refl _). Qed.

Lemma compareChunks_refl (l : list Utils.chunk) : Utils.compareChunks l l = Eq.
Proof.
  induction l as [|x l IH]; simpl; [reflexivity|].
  rewrite compareChunk_refl. exact IH.
Qed.

Lemma naturalCompare_refl (a : option string) : Utils.naturalCompare a a = 0.
Proof. unfold Utils.naturalCompare. rewrite compareChunks_refl. reflexivity. Qed.

Lemma compareChunk_antisym (x y : Utils.chunk) :
  Utils.compareChunk y x = CompOpp (Utils.compareChunk x y).
Proof. destruct x, y; exact (N.compare_antisym _ _). Qed.

Lemma compareChunks_antisym (l l' : list Utils.chunk) :
  Utils.compareChunks l' l = CompOpp (Utils.compareChunks l l').
Proof.
  revert l'. induction l as [|x l IH]; intros [|y l']; simpl; try reflexivity.
  rewrite (compareChunk_antisym x y).
  destruct (Utils.compareChunk x y); simpl; auto.
Qed.

Lemma naturalCompare_antisym (a b : option string) :
  Utils.naturalCompare b a = - Utils.naturalCompare a b.
Proof.
  unfold Utils.naturalCompare. rewrite compareChunks_antisym.
  destruct (Utils.compareChunks _ _); reflexivity.
Qed.

Lemma canUploadTo_implies_canVerify_witness :
  fst (canVerify Sample.onCOM5 None (Some {| silent := false |})) = true.
Proof.
  apply (proj2 (proj2 (canUploadTo_implies_canVerify Sample.onCOM5 None None
                         (Some {| silent := false |})))).
  reflexivity.
Defined.

Lemma selectedBoardUserFields_request_witness :
  exists fqbn,
    Board.fqbn Sample.mkr1000 = Some fqbn /\ fqbn <> ""
    /\ userFieldsRequest Sample.onCOM5 = Some (fqbn, "serial")
    /\ forall (F : Type) (service : string -> string -> list F),
         selectedBoardUserFields service Sample.onCOM5 = service fqbn "serial".
Proof.
  apply (proj2 (selectedBoardUserFields_request Sample.onCOM5)
           Sample.mkr1000 (Sample.serial "COM5")); reflexivity.
Defined.

Lemma provider_never_throws_witness :
  exists this',
    execAll Sample2.noPackageId Utils.naturalCompare Sample2.session (initial ∅ ∅)
    = Normal this'
    /\ rememberedUploadable this'.
Proof.
  apply provider_never_throws. split.
  - discriminate.
  - intros v Hv. vm_compute in Hv. discriminate.
Defined.

Lemma tryReconnect_throws_witness : tryReconnect Sample2.boardless = Throw TypeError.
Proof.
  apply (tryReconnect_throws Sample2.boardless Config.empty
           (Sample.entry "Arduino Uno" (Some "arduino:avr:uno") (Sample.serial "COM3")
              State.recognized (Some false))).
  - reflexivity.
  - reflexivity.
  - reflexivity.
  - left. reflexivity.
  - reflexivity.
Defined.

Lemma tryReconnect_outcome_witness :
  exists board,
    In board (availableBoards Sample.reenumerated)
    /\ Board.port board = Some (Sample.serial "COM10")
    /\ Board.name board = "MKR1000".
Proof.
  destruct (proj2 (tryReconnect_outcome Sample.reenumerated
                     (set_boardsConfig (Sample.config Sample.mkr1000 (Sample.serial "COM10"))
                        Sample.reenumerated)
                     true eq_refl) eq_refl)
    as (latest & lb & lp & p & board & Hlatest & Heq & _ & Hin & _ & Hport & Hname & _
        & _ & Hthis & _).
  exists board. split; [exact Hin|].
  assert (Hcfg : {| Config.selectedBoard := Some lb; Config.selectedPort := Some p |}
                 = Sample.config Sample.mkr1000 (Sample.serial "COM10")).
  { change (boardsConfig
              (set_boardsConfig
                 {| Config.selectedBoard := Some lb; Config.selectedPort := Some p |}
                 Sample.reenumerated)
            = boardsConfig
                (set_boardsConfig (Sample.config Sample.mkr1000 (Sample.serial "COM10"))
                   Sample.reenumerated)).
    rewrite <- Hthis. reflexivity. }
  injection Hcfg as -> ->. split; [exact Hport | exact Hname].
Defined.

Lemma reconcile_keeps_witness :
  boardsConfig (reconcileAvailableBoards Utils.naturalCompare Sample2.unoOnCOM3)
  = Sample.config Sample.uno (Sample.serial "COM3").
Proof.
  destruct (reconcile_keeps Utils.naturalCompare Sample2.unoOnCOM3)
    as (_ & _ & _ & _ & _ & _ & Hkept & _).
  apply (Hkept (Sample.serial "COM3")).
  - reflexivity.
  - left. reflexivity.
Defined.

Lemma reconcile_idempotent_witness :
  reconcileAvailableBoards Utils.naturalCompare
    (reconcileAvailableBoards Utils.naturalCompare Sample2.unoOnCOM3)
  = reconcileAvailableBoards Utils.naturalCompare Sample2.unoOnCOM3.
Proof. apply reconcile_idempotent. exact naturalCompare_refl. Defined.

Lemma reconciled_entries_witness :
  is_Some (Board.state
             (Sample.entry "Arduino Uno" (Some "arduino:avr:uno") (Sample.serial "COM3")
                State.recognized (Some true))).
Proof.
  apply (proj1 (reconciled_entries Utils.naturalCompare Sample2.unoOnCOM3)).
  vm_compute. left. reflexivity.
Defined.

Lemma reconciled_shows_ports_witness :
  exists entry,
    In entry (reconciled Utils.naturalCompare Sample2.unoOnCOM3)
    /\ AvailableBoard.addressOf entry = Some "COM7".
Proof.
  apply (proj1 (reconciled_shows_ports Utils.naturalCompare Sample2.unoOnCOM3)
           (Sample.serial "COM7")).
  - right. left. reflexivity.
  - reflexivity.
Defined.

Lemma reconciled_provenance_witness :
  exists board,
    In board (_attachedBoards Sample2.unoOnCOM3)
    /\ Board.port board = Some (Sample.serial "COM3")
    /\ Board.name board = "Arduino Uno".
Proof.
  destruct (proj1 (reconciled_provenance Utils.naturalCompare Sample2.unoOnCOM3
                     (Sample.entry "Arduino Uno" (Some "arduino:avr:uno")
                        (Sample.serial "COM3") State.recognized (Some true))
                     ltac:(vm_compute; left; reflexivity))
              eq_refl) as (board & Hin & Hport & Hname & _).
  exists board. split; [exact Hin|]. split; [exact Hport | symmetry; exact Hname].
Defined.

Lemma saveState_remembers_witness :
  getLastSelectedBoardOnPort (saveState Sample.onCOM5) (Sample.network "COM5")
  = Some Sample.mkr1000.
Proof.
  apply (proj1 (proj1 (saveState_remembers Sample.onCOM5) Sample.mkr1000
                  (Sample.serial "COM5") eq_refl eq_refl)).
  reflexivity.
Defined.

Lemma saveState_loadState_witness :
  boardsConfig
    (loadState None
       (initial (storedBoards (saveState Sample.onCOM5))
                (storedConfigs (saveState Sample.onCOM5))))
  = Sample.config Sample.mkr1000 (Sample.serial "COM5").
Proof.
  apply (proj1 (saveState_loadState None Sample.onCOM5)
           (Sample.config Sample.mkr1000 (Sample.serial "COM5"))); reflexivity.
Defined.

Lemma notifyPlatformInstalled_outcome_witness :
  boardsConfig
    (fst (notifyPlatformInstalled Sample2.noPackageId Sample.avr "Arduino AVR Boards"
            Sample2.unoUnknown))
  = Sample.config Sample.uno (Sample.serial "COM3").
Proof.
  apply (proj1 (proj2 (notifyPlatformInstalled_outcome Sample2.noPackageId Sample.avr
                         "Arduino AVR Boards" Sample2.unoUnknown))
           Sample.unoWithoutFqbn Sample.uno).
  - reflexivity.
  - reflexivity.
  - left. reflexivity.
Defined.

Lemma uninstall_then_install_witness :
  exists installedBoard,
    In installedBoard (boards Sample.avr)
    /\ boardsConfig
         (fst (notifyPlatformInstalled Sample2.noPackageId Sample.avr "Arduino AVR Boards"
                 (notifyPlatformUninstalled Sample.avr Sample2.unoAlone)))
       = {| Config.selectedBoard := Some installedBoard;
            Config.selectedPort := Some (Sample.serial "COM4") |}
    /\ Board.name installedBoard = "Arduino Uno"
    /\ Board.fqbn installedBoard = Some "arduino:avr:uno".
Proof.
  apply (uninstall_then_install Sample2.noPackageId Sample.avr "Arduino AVR Boards"
           Sample2.unoAlone Sample.uno); reflexivity.
Defined.

Lemma waitUntilAvailable_settles_once_witness :
  returned
    (run (waitUntilAvailable Sample.onCOM5
            (Sample.attached "MKR1000" "arduino:samd:mkr1000" (Sample.serial "COM10"))
            (Some 50))
         ([Fires []; TimerElapses]
          ++ [Fires [Sample.attached "MKR1000" "arduino:samd:mkr1000"
                       (Sample.serial "COM10")]]))
  = Rejected (TimeoutAfter 50).
Proof.
  rewrite waitUntilAvailable_settles_once; [reflexivity|].
  vm_compute. discriminate.
Defined.

Lemma waitUntilAvailable_disposes_on_match_witness :
  listening
    (run (waitUntilAvailable Sample.onCOM5
            (Sample.attached "MKR1000" "arduino:samd:mkr1000" (Sample.serial "COM10"))
            None)
         ([Fires []]
          ++ Fires [Sample.attached "MKR1000" "arduino:samd:mkr1000" (Sample.serial "COM10")]
          :: [Fires []; Fires []]))
  = false.
Proof.
  apply (proj2 (waitUntilAvailable_disposes_on_match Sample.onCOM5
                  (Sample.attached "MKR1000" "arduino:samd:mkr1000" (Sample.serial "COM10"))
                  None) eq_refl).
  - constructor; [reflexivity | constructor].
  - eexists. reflexivity.
Defined.

Lemma compare_antisymmetric_witness :
  AvailableBoard.compare Utils.naturalCompare
    (Sample.entry "Arduino Uno" (Some "arduino:avr:uno") (Sample.serial "COM4")
       State.recognized (Some true))
    (Sample.entry "Arduino Uno" (Some "arduino:avr:uno") (Sample.serial "COM3")
       State.recognized (Some false))
  = - AvailableBoard.compare Utils.naturalCompare
        (Sample.entry "Arduino Uno" (Some "arduino:avr:uno") (Sample.serial "COM3")
           State.recognized (Some false))
        (Sample.entry "Arduino Uno" (Some "arduino:avr:uno") (Sample.serial "COM4")
           State.recognized (Some true)).
Proof. apply compare_antisymmetric. intros a b. apply naturalCompare_antisym. Defined.

Lemma reconciled_sorted_as_specified_witness :
  sortedBy (compareAsSpecified Utils.naturalCompare)
           (reconciled Utils.naturalCompare Sample2.unoOnCOM3).
Proof.
  apply (reconciled_sorted_as_specified Utils.naturalCompare Sample2.unoOnCOM3).
  - split.
    + intros a b Ha Hb. vm_compute in Ha, Hb.
      repeat match goal with
             | H : _ \/ _ |- _ => destruct H as [<- | H]
             | H : False |- _ => destruct H
             end; vm_compute; intuition discriminate.
    + intros a b c Ha Hb Hc. vm_compute in Ha, Hb, Hc.
      repeat match goal with
             | H : _ \/ _ |- _ => destruct H as [<- | H]
             | H : False |- _ => destruct H
             end; vm_compute; intuition discriminate.
  - intros a b Ha Hb. vm_compute in Ha, Hb.
    repeat match goal with
           | H : _ \/ _ |- _ => destruct H as [<- | H]
           | H : False |- _ => destruct H
           end; vm_compute; intuition discriminate.
Defined.


Lemma selectSketch_disk_witness :
  exists file others,
    OpenSketch.filePaths Sample2.services = file :: others
    /\ OpenSketch.response Sample2.services = 1.
Proof.
  destruct (proj1 (selectSketch_disk Sample2.services))
    as (file & others & Hpaths & _ & _ & Hresponse & _).
  - vm_compute. discriminate.
  - exists file, others. split; assumption.
Defined.


